(** * Reaktoro: reaction utilities, mineral mechanisms, water state, aqueous mixtures

    A shallow embedding of the numerical kernels of the library:

    - [ReactionUtils.cpp]   (species lookup in a reaction, equilibrium constant,
                             reaction quotient),
    - [MineralMechanism.cpp] (the mechanism string constructor and its setters),
    - [PartitionUtils.cpp]  (counts, rows, columns and blocks of a partition),
    - [WaterThermoStateUtils.cpp] (thermodynamic state of water from its
                             Helmholtz state),
    - [AqueousMixture.hpp]  (the classification of aqueous species).

    Conventions of the embedding.  A C++ [double] is read as a real number:
    rounding, infinities and NaN are not represented.  [unsigned] is a 32-bit
    integer and its wrap-around is written out; [Index] ([std::size_t]) is a
    position in a vector and is a [nat].  A [std::vector] is a [list].  A C++
    call that throws, or that reads a vector outside its range, is a value of
    [result]. *)

From Stdlib Require Import Reals Lra List String Ascii ZArith Lia Bool Permutation.
Import ListNotations.

Set Implicit Arguments.

(** ** Outcomes of a C++ call *)

Module Cpp.

(** The [Exception] structure of [Reaktor/Common/Exception.hpp]: the two
    message streams that [raise] turns into the thrown error. *)
Record Exception : Type := mkException {
  error : string;
  reason : string
}.

(** A call returns ([Ok]), throws ([Raise]), or leaves the range of a vector
    or the conforming shapes of the linear algebra library ([Fault]): for
    [operator[]] on a [std::vector] that is undefined behaviour. *)
Inductive result (A : Type) : Type :=
| Ok (a : A)
| Raise (e : Exception)
| Fault.

Arguments Ok {A} a.
Arguments Raise {A} e.
Arguments Fault {A}.

Definition bind {A B : Type} (m : result A) (k : A -> result B) : result B :=
  match m with
  | Ok a => k a
  | Raise e => Raise e
  | Fault => Fault
  end.

(** [v[i]] *)
Definition at_ {A : Type} (v : list A) (i : nat) : result A :=
  match nth_error v i with
  | Some x => Ok x
  | None => Fault
  end.

(** [for(unsigned i = lo; i < lo + n; ++i) body] over a loop state. *)
Fixpoint for_range {S : Type} (lo n : nat) (body : nat -> S -> result S) (s : S)
  : result S :=
  match n with
  | O => Ok s
  | Datatypes.S n' => bind (body lo s) (for_range (Datatypes.S lo) n' body)
  end.

(** [for(const auto& x : xs) body] over a loop state. *)
Fixpoint for_each {A S : Type} (xs : list A) (body : A -> S -> result S) (s : S)
  : result S :=
  match xs with
  | [] => Ok s
  | x :: xs' => bind (body x s) (for_each xs' body)
  end.

(** Conversion of a size to [unsigned], and addition of two [unsigned]. *)
Definition to_unsigned (z : Z) : Z := (z mod 2 ^ 32)%Z.
Definition unsigned_add (a b : Z) : Z := to_unsigned (a + b).

End Cpp.

Import Cpp.

Notation "x <- m ;; k" := (bind m (fun x => k))
  (at level 61, m at next level, right associativity).

(** ** Vectors and matrices ([Reaktor/Common/Matrix.hpp]) *)

Module LinAlg.

Definition Vector : Type := list R.

(** A matrix is the list of its rows. *)
Definition Matrix : Type := list (list R).

Definition zeros (n : nat) : Vector := repeat 0%R n.

Definition scale (c : R) (v : Vector) : Vector := map (Rmult c) v.

Fixpoint zip_plus (u v : Vector) : Vector :=
  match u, v with
  | x :: u', y :: v' => (x + y)%R :: zip_plus u' v'
  | _, _ => []
  end.

(** [u += v]: the library refuses operands of different sizes. *)
Definition plus_assign (u v : Vector) : result Vector :=
  if Nat.eqb (List.length u) (List.length v) then Ok (zip_plus u v) else Fault.

(** [m.row(i)] *)
Definition row (m : Matrix) (i : nat) : result Vector := at_ m i.

End LinAlg.

(** ** Reaktor/Core/ReactionUtils.cpp *)

Module Species.
(** What the reaction utilities read of a [Species]: its name and its
    chemical potential function of temperature and pressure. *)
Record Species : Type := mk {
  name : string;
  chemicalPotential : R -> R -> R
}.
End Species.

Module Multiphase.
Record Multiphase : Type := mk {
  species : list Species.Species
}.
End Multiphase.

Module Reaction.
(** What the reaction utilities read of a [Reaction]: the names of its
    species, their indices in the system and their stoichiometries. *)
Record Reaction : Type := mk {
  species : list string;
  indices : list nat;
  stoichiometries : list R
}.
End Reaction.

Module ScalarResult.
Record ScalarResult : Type := mk {
  val : R;
  grad : LinAlg.Vector
}.
End ScalarResult.

Module VectorResult.
Record VectorResult : Type := mk {
  val : LinAlg.Vector;
  grad : LinAlg.Matrix
}.
End VectorResult.

Module ReactionUtils.

Import LinAlg.

(** [std::find(begin, end, x) - begin] *)
Fixpoint find_offset (l : list string) (x : string) : nat :=
  match l with
  | [] => O
  | y :: l' => if String.eqb y x then O else S (find_offset l' x)
  end.

Definition numSpecies (reaction : Reaction.Reaction) : Z :=
  to_unsigned (Z.of_nat (List.length (Reaction.species reaction))).

Definition indexSpecies (reaction : Reaction.Reaction) (species : string) : nat :=
  find_offset (Reaction.species reaction) species.

Definition containsSpecies (reaction : Reaction.Reaction) (species : string) : bool :=
  (Z.of_nat (indexSpecies reaction species) <? numSpecies reaction)%Z.

Definition stoichiometry (reaction : Reaction.Reaction) (species : string) : result R :=
  let index := indexSpecies reaction species in
  if (Z.of_nat index <? numSpecies reaction)%Z
  then at_ (Reaction.stoichiometries reaction) index
  else Ok 0%R.

Definition EquilibriumConstant : Type := R -> R -> result R.

Section Numerics.

(** [universalGasConstant] of [Reaktor/Common/Constants.hpp]. *)
Variable universalGasConstant : R.

(** [std::pow] of the C library. *)
Variable pow : R -> R -> R.

Definition equilibriumConstant (multiphase : Multiphase.Multiphase)
    (reaction : Reaction.Reaction) : result EquilibriumConstant :=
  let species := Multiphase.species multiphase in
  let stoichiometries := Reaction.stoichiometries reaction in
  let num_species := numSpecies reaction in
  let R_ := universalGasConstant in
  mu <- for_each (Reaction.indices reaction)
          (fun i mu =>
             s <- at_ species i ;;
             Ok (mu ++ [Species.chemicalPotential s]))
          [] ;;
  Ok (fun T P =>
        sum <- for_range 0 (Z.to_nat num_species)
                 (fun i sum =>
                    vi <- at_ stoichiometries i ;;
                    mui <- at_ mu i ;;
                    Ok (sum + vi * mui T P)%R)
                 0%R ;;
        Ok (exp (- sum / (R_ * T)))).

Definition reactionQuotient (reaction : Reaction.Reaction)
    (a : VectorResult.VectorResult) : result ScalarResult.ScalarResult :=
  let size := to_unsigned (Z.of_nat (List.length (VectorResult.val a))) in
  let Q := ScalarResult.mk 1 (zeros (Z.to_nat size)) in
  let stoichiometries := Reaction.stoichiometries reaction in
  let indices := Reaction.indices reaction in
  Q <- for_range 0 (Z.to_nat (numSpecies reaction))
         (fun i Q =>
            vi <- at_ stoichiometries i ;;
            ii <- at_ indices i ;;
            ai <- at_ (VectorResult.val a) ii ;;
            Ok (ScalarResult.mk (ScalarResult.val Q * pow ai vi)
                                (ScalarResult.grad Q)))
         Q ;;
  for_range 0 (Z.to_nat (numSpecies reaction))
    (fun i Q =>
       vi <- at_ stoichiometries i ;;
       ii <- at_ indices i ;;
       ai <- at_ (VectorResult.val a) ii ;;
       r <- row (VectorResult.grad a) ii ;;
       g <- plus_assign (ScalarResult.grad Q)
              (scale (ScalarResult.val Q * vi / ai) r) ;;
       Ok (ScalarResult.mk (ScalarResult.val Q) g))
    Q.

End Numerics.

End ReactionUtils.

(** ** Reaktor/Utils/StringUtils.hpp *)

Module StringUtils.

Open Scope string_scope.

Fixpoint is_any_of (delims : string) (c : ascii) : bool :=
  match delims with
  | EmptyString => false
  | String d delims' => Ascii.eqb c d || is_any_of delims' c
  end.

Definition push_word (word : string) (words : list string) : list string :=
  if String.eqb word "" then words else word :: words.

(** Modelled from the spec: [split] of [Reaktor/Utils/StringUtils.hpp] is not
    among the sources.  The mechanism format is a list of tokens separated by
    the delimiter characters; [split_from delims word str] cuts [str] at every
    character of [delims], [word] being the word read so far, and keeps the
    words that are not empty. *)
Fixpoint split_from (delims : string) (word : string) (str : string) : list string :=
  match str with
  | EmptyString => push_word word []
  | String c str' =>
      if is_any_of delims c
      then push_word word (split_from delims "" str')
      else split_from delims (word ++ String c "") str'
  end.

Definition split (str delims : string) : list string := split_from delims "" str.

(** [str.find(pattern) != std::string::npos] *)
Definition found (pattern str : string) : bool :=
  match String.index 0 pattern str with
  | Some _ => true
  | None => false
  end.

Definition digit (c : ascii) : option Z :=
  let n := nat_of_ascii c in
  if (48 <=? n)%nat && (n <=? 57)%nat then Some (Z.of_nat (n - 48)) else None.

(** The digits at the head of [s]: their value after [acc], how many there
    are after [count], and what follows them. *)
Fixpoint digits (s : string) (acc : Z) (count : nat) : Z * nat * string :=
  match s with
  | EmptyString => (acc, count, s)
  | String c s' =>
      match digit c with
      | Some d => digits s' (10 * acc + d)%Z (S count)
      | None => (acc, count, s)
      end
  end.

(** The decimal number at the head of [s] as a mantissa and the number of
    its fractional digits: an optional sign, digits, and an optional point
    followed by digits. *)
Definition decimal (s : string) : Z * nat :=
  let '(sign, body) :=
    match s with
    | String "-" s' => ((-1)%Z, s')
    | String "+" s' => (1%Z, s')
    | _ => (1%Z, s)
    end in
  let '(int_part, _, rest) := digits body 0 0 in
  match rest with
  | String "." frac =>
      let '(mantissa, places, _) := digits frac int_part 0 in
      ((sign * mantissa)%Z, places)
  | _ => ((sign * int_part)%Z, O)
  end.

(** Modelled from the spec: [tofloat] of [Reaktor/Utils/StringUtils.hpp] is
    not among the sources.  The values of the mechanism format are decimal
    numbers; [tofloat] reads the decimal number at the head of the word (no
    exponent part), and 0 when there is none. *)
Definition tofloat (s : string) : R :=
  let '(mantissa, places) := decimal s in
  (IZR mantissa / IZR (10 ^ Z.of_nat places))%R.

End StringUtils.

(** ** Reaktor/Core/MineralMechanism.cpp *)

Module MineralMechanism.

Import StringUtils.
Open Scope string_scope.

Section Mechanism.

(** [units::convertible] and [units::convert] of [Reaktor/Common/Units.hpp]. *)
Variable convertible : string -> string -> bool.
Variable convert : R -> string -> string -> R.

(** [MineralCatalyst] and its constructor from a string
    ([Reaktor/Core/MineralCatalyst.hpp]). *)
Variable MineralCatalyst : Type.
Variable MineralCatalyst_of_string : string -> result MineralCatalyst.

Record MineralMechanism : Type := mk {
  kappa : R;
  Ea : R;
  p : R;
  q : R;
  catalysts : list MineralCatalyst
}.

(** The members as the default member initializers of the class leave them
    before the body of a constructor runs; the vector of catalysts is empty. *)
Variables kappa0 Ea0 p0 q0 : R.

Definition initial : MineralMechanism := mk kappa0 Ea0 p0 q0 [].

Definition unknownOptionError (option : string) : result unit :=
  Raise (mkException
    ("Cannot set the option " ++ option ++ " in the mineral mechanism.")
    "This option has incorrect format or is not supported.").

Definition missingUnitError (quantity : string) : result unit :=
  Raise (mkException
    ("Cannot set the quantity " ++ quantity ++ " in the mineral mechanism.")
    ("The units of quantity " ++ quantity ++ " have not been specified.")).

(** [error(message, reason)] of [Reaktor/Common/Exception.hpp] throws. *)
Definition error_ (message why : string) : result unit :=
  Raise (mkException message why).

Definition checkRateConstantUnit (unit_ : string) : result unit :=
  if negb (convertible unit_ "mol/(m2*s)")
  then error_ "Cannot set the kinetic rate constant of the mineral reaction"
              "The provided unit cannot be converted to mol/(m2*s)"
  else Ok tt.

Definition checkActivationEnergyUnit (unit_ : string) : result unit :=
  if negb (convertible unit_ "kJ/mol")
  then error_ "Cannot set the Arrhenius activation energy of the mineral reaction"
              "The provided unit cannot be converted to kJ/mol"
  else Ok tt.

Definition setRateConstant (value : R) (unit_ : string) (this : MineralMechanism)
  : result MineralMechanism :=
  _ <- checkRateConstantUnit unit_ ;;
  Ok (mk (convert value unit_ "mol/(m2*s)") (Ea this) (p this) (q this)
         (catalysts this)).

Definition setActivationEnergy (value : R) (unit_ : string) (this : MineralMechanism)
  : result MineralMechanism :=
  _ <- checkActivationEnergyUnit unit_ ;;
  Ok (mk (kappa this) (convert value unit_ "kJ/mol") (p this) (q this)
         (catalysts this)).

Definition setPowerP (value : R) (this : MineralMechanism) : MineralMechanism :=
  mk (kappa this) (Ea this) value (q this) (catalysts this).

Definition setPowerQ (value : R) (this : MineralMechanism) : MineralMechanism :=
  mk (kappa this) (Ea this) (p this) value (catalysts this).

(** The test that sends an option to the catalyst constructor. *)
Definition is_catalyst (option : string) : bool :=
  found "a[" option || found "activity[" option ||
  found "p[" option || found "pressure[" option.

(** The guard on the words of an option. *)
Definition guard (words : list string) : bool :=
  Nat.eqb (List.length words) 0 || Nat.ltb 3 (List.length words).

(** The body of the loop of the constructor, for one option. *)
Definition parse_option (option : string) (this : MineralMechanism)
  : result MineralMechanism :=
  if is_catalyst option then
    c <- MineralCatalyst_of_string option ;;
    Ok (mk (kappa this) (Ea this) (p this) (q this) (catalysts this ++ [c]))
  else
    let words := split option "= " in
    _ <- (if guard words then unknownOptionError option else Ok tt) ;;
    quantity <- at_ words 0 ;;
    word1 <- at_ words 1 ;;
    let value := tofloat word1 in
    _ <- (if String.eqb quantity "logk" || String.eqb quantity "Ea"
          then if Nat.ltb (List.length words) 3
               then missingUnitError quantity else Ok tt
          else Ok tt) ;;
    unit_ <- (if Nat.eqb (List.length words) 3 then at_ words 2 else Ok "") ;;
    if String.eqb quantity "logk" then
      setRateConstant (Rpower 10 value) unit_ this
    else if String.eqb quantity "Ea" then
      setActivationEnergy value unit_ this
    else if String.eqb quantity "p" then
      Ok (setPowerP value this)
    else if String.eqb quantity "q" then
      Ok (setPowerQ value this)
    else
      _ <- unknownOptionError option ;; Ok this.

(** [MineralMechanism::MineralMechanism(const std::string& mechanism)] *)
Definition of_string (mechanism : string) : result MineralMechanism :=
  let options := split mechanism "," in
  for_each options parse_option initial.

(** [setCatalysts(const std::string&)]: the vector is cleared, then the
    catalyst is constructed from the string and pushed. *)
Definition setCatalysts_of_string (strcatalysts : string) (this : MineralMechanism)
  : result MineralMechanism :=
  let cleared := mk (kappa this) (Ea this) (p this) (q this) [] in
  c <- MineralCatalyst_of_string strcatalysts ;;
  Ok (mk (kappa cleared) (Ea cleared) (p cleared) (q cleared)
         (catalysts cleared ++ [c])).

(** [setCatalysts(const MineralCatalyst&)] *)
Definition setCatalysts (catalyst : MineralCatalyst) (this : MineralMechanism)
  : MineralMechanism :=
  let cleared := mk (kappa this) (Ea this) (p this) (q this) [] in
  mk (kappa cleared) (Ea cleared) (p cleared) (q cleared)
     (catalysts cleared ++ [catalyst]).

(** [setCatalysts(const std::vector<MineralCatalyst>&)] *)
Definition setCatalysts_of_vector (veccatalysts : list MineralCatalyst)
    (this : MineralMechanism) : MineralMechanism :=
  mk (kappa this) (Ea this) (p this) (q this) veccatalysts.

End Mechanism.

End MineralMechanism.

(** ** Reaktoro/Common/ThermoScalar.hpp *)

Module ThermoScalar.

Open Scope R_scope.

(** Modelled from the spec: [ThermoScalar] of
    [Reaktoro/Common/ThermoScalar.hpp] is not among the sources.  It is a
    value object: a scalar quantity plus its partial derivatives with respect
    to temperature and pressure, and its arithmetic carries the derivatives
    along by the rules of differentiation. *)
Record ThermoScalar : Type := mk {
  val : R;
  ddt : R;
  ddp : R
}.

(** A [double] used where a [ThermoScalar] is expected. *)
Definition const (c : R) : ThermoScalar := mk c 0 0.

Definition opp (x : ThermoScalar) : ThermoScalar :=
  mk (- val x) (- ddt x) (- ddp x).

Definition add (x y : ThermoScalar) : ThermoScalar :=
  mk (val x + val y) (ddt x + ddt y) (ddp x + ddp y).

Definition sub (x y : ThermoScalar) : ThermoScalar :=
  mk (val x - val y) (ddt x - ddt y) (ddp x - ddp y).

Definition mul (x y : ThermoScalar) : ThermoScalar :=
  mk (val x * val y)
     (ddt x * val y + val x * ddt y)
     (ddp x * val y + val x * ddp y).

Definition div (x y : ThermoScalar) : ThermoScalar :=
  mk (val x / val y)
     ((ddt x * val y - val x * ddt y) / (val y * val y))
     ((ddp x * val y - val x * ddp y) / (val y * val y)).

End ThermoScalar.

(** ** Reaktoro/Thermodynamics/Water/WaterThermoStateUtils.cpp *)

Module Water.

Import ThermoScalar.

Declare Scope ts_scope.
Delimit Scope ts_scope with ts.
Bind Scope ts_scope with ThermoScalar.
Infix "+" := add : ts_scope.
Infix "-" := sub : ts_scope.
Infix "*" := mul : ts_scope.
Infix "/" := div : ts_scope.
Notation "- x" := (opp x) : ts_scope.

(** [Temperature] and [Pressure] are scalars of the same kind. *)
Definition Temperature : Type := ThermoScalar.
Definition Pressure : Type := ThermoScalar.

(** The specific Helmholtz free energy of water and its partial derivatives
    with respect to temperature and density
    ([Reaktoro/Thermodynamics/Water/WaterHelmholtzState.hpp]). *)
Record WaterHelmholtzState : Type := mkWaterHelmholtzState {
  wh_helmholtz : ThermoScalar;
  helmholtzT : ThermoScalar;
  helmholtzD : ThermoScalar;
  helmholtzTT : ThermoScalar;
  helmholtzTD : ThermoScalar;
  helmholtzDD : ThermoScalar;
  helmholtzTTT : ThermoScalar;
  helmholtzTTD : ThermoScalar;
  helmholtzTDD : ThermoScalar;
  helmholtzDDD : ThermoScalar
}.

(** [Reaktoro/Thermodynamics/Water/WaterThermoState.hpp] *)
Record WaterThermoState : Type := mkWaterThermoState {
  temperature : ThermoScalar;
  volume : ThermoScalar;
  entropy : ThermoScalar;
  helmholtz : ThermoScalar;
  internal_energy : ThermoScalar;
  enthalpy : ThermoScalar;
  gibbs : ThermoScalar;
  cv : ThermoScalar;
  cp : ThermoScalar;
  density : ThermoScalar;
  densityT : ThermoScalar;
  densityP : ThermoScalar;
  densityTT : ThermoScalar;
  densityTP : ThermoScalar;
  densityPP : ThermoScalar;
  pressure : ThermoScalar;
  pressureT : ThermoScalar;
  pressureD : ThermoScalar;
  pressureTT : ThermoScalar;
  pressureTD : ThermoScalar;
  pressureDD : ThermoScalar
}.

Open Scope ts_scope.

Definition waterThermoState (T : Temperature) (P : Pressure) (D : ThermoScalar)
    (wh : WaterHelmholtzState) : WaterThermoState :=
  let wt_temperature := T in
  let wt_pressure := P in
  let wt_pressureD := const 2 * D * helmholtzD wh + D * D * helmholtzDD wh in
  let wt_pressureT := D * D * helmholtzTD wh in
  let wt_pressureDD :=
    const 2 * helmholtzD wh + const 4 * D * helmholtzDD wh
    + D * D * helmholtzDDD wh in
  let wt_pressureTD := const 2 * D * helmholtzTD wh + D * D * helmholtzTDD wh in
  let wt_pressureTT := D * D * helmholtzTTD wh in
  let wt_density := D in
  let wt_densityT := - wt_pressureT / wt_pressureD in
  let wt_densityP := const 1 / wt_pressureD in
  let wt_densityTT :=
    - wt_densityT * wt_densityP
    * (wt_densityT * wt_pressureDD + const 2 * wt_pressureTD
       + wt_pressureTT / wt_densityT) in
  let wt_densityTP :=
    - wt_densityP * wt_densityP * (wt_densityT * wt_pressureDD + wt_pressureTD) in
  let wt_densityPP := - wt_densityP * wt_densityP * wt_densityP * wt_pressureDD in
  let wt_volume := const 1 / D in
  let wt_entropy := - helmholtzT wh in
  let wt_helmholtz := wh_helmholtz wh in
  let wt_internal_energy := wt_helmholtz + T * wt_entropy in
  let wt_enthalpy := wt_internal_energy + P / D in
  let wt_gibbs := wt_enthalpy - T * wt_entropy in
  let wt_cv := - T * helmholtzTT wh in
  let wt_cp := wt_cv + T / (D * D) * wt_pressureT * wt_pressureT / wt_pressureD in
  {| temperature := wt_temperature;
     volume := wt_volume;
     entropy := wt_entropy;
     helmholtz := wt_helmholtz;
     internal_energy := wt_internal_energy;
     enthalpy := wt_enthalpy;
     gibbs := wt_gibbs;
     cv := wt_cv;
     cp := wt_cp;
     density := wt_density;
     densityT := wt_densityT;
     densityP := wt_densityP;
     densityTT := wt_densityTT;
     densityTP := wt_densityTP;
     densityPP := wt_densityPP;
     pressure := wt_pressure;
     pressureT := wt_pressureT;
     pressureD := wt_pressureD;
     pressureTT := wt_pressureTT;
     pressureTD := wt_pressureTD;
     pressureDD := wt_pressureDD |}.

Close Scope ts_scope.

Section Formulations.

(** The density of water at a temperature and a pressure, and the Helmholtz
    state of water at a temperature and a density, of an equation of state
    ([WaterUtils.hpp], [WaterHelmholtzStateHGK.hpp],
    [WaterHelmholtzStateWagnerPruss.hpp]). *)
Variable waterDensityHGK : Temperature -> Pressure -> ThermoScalar.
Variable waterHelmholtzStateHGK : Temperature -> ThermoScalar -> WaterHelmholtzState.
Variable waterDensityWagnerPruss : Temperature -> Pressure -> ThermoScalar.
Variable waterHelmholtzStateWagnerPruss :
  Temperature -> ThermoScalar -> WaterHelmholtzState.

Definition waterThermoStateHGK (T : Temperature) (P : Pressure) : WaterThermoState :=
  let D := waterDensityHGK T P in
  let whs := waterHelmholtzStateHGK T D in
  waterThermoState T P D whs.

Definition waterThermoStateWagnerPruss (T : Temperature) (P : Pressure)
  : WaterThermoState :=
  let D := waterDensityWagnerPruss T P in
  let whs := waterHelmholtzStateWagnerPruss T D in
  waterThermoState T P D whs.

End Formulations.

End Water.

(** ** Reaktoro/Thermodynamics/Mixtures/AqueousMixture.hpp *)

Module AqueousSpecies.
(** What the mixture reads of an [AqueousSpecies] to classify it: its name
    and its electrical charge, in units of the elementary charge. *)
Record AqueousSpecies : Type := mk {
  name : string;
  charge : Z
}.
End AqueousSpecies.

Module AqueousMixture.

Definition Indices : Type := list nat.

(** The species of the mixture ([GeneralMixture<AqueousSpecies>]) and the
    index members of the class. *)
Record AqueousMixture : Type := mk {
  species : list AqueousSpecies.AqueousSpecies;
  idx_neutral_species : Indices;
  idx_charged_species : Indices;
  idx_cations : Indices;
  idx_anions : Indices
}.

(** The indices, counted from [i], of the species that satisfy [test]. *)
Fixpoint indices_from (i : nat) (test : AqueousSpecies.AqueousSpecies -> bool)
    (l : list AqueousSpecies.AqueousSpecies) : Indices :=
  match l with
  | [] => []
  | s :: l' =>
      if test s then i :: indices_from (S i) test l'
      else indices_from (S i) test l'
  end.

Definition is_neutral (s : AqueousSpecies.AqueousSpecies) : bool :=
  (AqueousSpecies.charge s =? 0)%Z.
Definition is_charged (s : AqueousSpecies.AqueousSpecies) : bool :=
  negb (AqueousSpecies.charge s =? 0)%Z.
Definition is_cation (s : AqueousSpecies.AqueousSpecies) : bool :=
  (0 <? AqueousSpecies.charge s)%Z.
Definition is_anion (s : AqueousSpecies.AqueousSpecies) : bool :=
  (AqueousSpecies.charge s <? 0)%Z.

(** Modelled from the spec: the constructor
    [AqueousMixture(const std::vector<AqueousSpecies>&)] is declared in the
    header and defined in a file that is not among the sources.  It
    classifies each species at construction time into neutral and charged,
    and the charged ones into cations and anions by the sign of the charge. *)
Definition make (species : list AqueousSpecies.AqueousSpecies) : AqueousMixture :=
  {| species := species;
     idx_neutral_species := indices_from 0 is_neutral species;
     idx_charged_species := indices_from 0 is_charged species;
     idx_cations := indices_from 0 is_cation species;
     idx_anions := indices_from 0 is_anion species |}.

(** [size()] of a vector returned as [unsigned]. *)
Definition size {A : Type} (v : list A) : Z := to_unsigned (Z.of_nat (List.length v)).

(** [GeneralMixture::numSpecies] *)
Definition numSpecies (m : AqueousMixture) : Z := size (species m).

Definition numNeutralSpecies (m : AqueousMixture) : Z := size (idx_neutral_species m).
Definition numChargedSpecies (m : AqueousMixture) : Z := size (idx_charged_species m).
Definition indicesNeutralSpecies (m : AqueousMixture) : Indices := idx_neutral_species m.
Definition indicesChargedSpecies (m : AqueousMixture) : Indices := idx_charged_species m.
Definition indicesCations (m : AqueousMixture) : Indices := idx_cations m.
Definition indicesAnions (m : AqueousMixture) : Indices := idx_anions m.

End AqueousMixture.

(** ** Vocabulary of the statements *)

Module Props.

Import LinAlg ReactionUtils.

(** The invariant of a [Reaction]: one index and one stoichiometry for each
    of its species, and a number of species that an [unsigned] holds. *)
Definition reaction_ok (r : Reaction.Reaction) : bool :=
  Nat.eqb (List.length (Reaction.indices r)) (List.length (Reaction.species r))
  && Nat.eqb (List.length (Reaction.stoichiometries r))
             (List.length (Reaction.species r))
  && (Z.of_nat (List.length (Reaction.species r)) <? 2 ^ 32)%Z.

(** The species of the reaction are species of the system. *)
Definition reaction_in (m : Multiphase.Multiphase) (r : Reaction.Reaction) : bool :=
  forallb (fun i => Nat.ltb i (List.length (Multiphase.species m)))
          (Reaction.indices r).

(** The activities cover the [n] species of a system: [n] values and an
    [n] by [n] matrix of derivatives, the reaction's indices among them. *)
Definition activities_cover (r : Reaction.Reaction) (a : VectorResult.VectorResult)
  : bool :=
  let n := List.length (VectorResult.val a) in
  Nat.eqb (List.length (VectorResult.grad a)) n
  && forallb (fun row => Nat.eqb (List.length row) n) (VectorResult.grad a)
  && forallb (fun i => Nat.ltb i n) (Reaction.indices r)
  && (Z.of_nat n <? 2 ^ 32)%Z.

(** The positions [0 .. N-1] of the participating species of a reaction. *)
Definition participants (r : Reaction.Reaction) : list nat :=
  seq 0 (List.length (Reaction.species r)).

(** Stoichiometry, system index, chemical potential, activity and row of
    activity derivatives of the [i]-th participating species. *)
Definition nu (r : Reaction.Reaction) (i : nat) : R :=
  nth i (Reaction.stoichiometries r) 0%R.

Definition system_index (r : Reaction.Reaction) (i : nat) : nat :=
  nth i (Reaction.indices r) O.

Definition mu (m : Multiphase.Multiphase) (r : Reaction.Reaction) (i : nat)
  : R -> R -> R :=
  match nth_error (Multiphase.species m) (system_index r i) with
  | Some s => Species.chemicalPotential s
  | None => fun _ _ => 0%R
  end.

Definition activity (r : Reaction.Reaction) (a : VectorResult.VectorResult)
    (i : nat) : R :=
  nth (system_index r i) (VectorResult.val a) 0%R.

Definition activity_row (r : Reaction.Reaction) (a : VectorResult.VectorResult)
    (i : nat) : Vector :=
  nth (system_index r i) (VectorResult.grad a) [].

Definition sum_over (l : list nat) (f : nat -> R) : R :=
  fold_right (fun i acc => (f i + acc)%R) 0%R l.

Definition product_over (l : list nat) (f : nat -> R) : R :=
  fold_right (fun i acc => (f i * acc)%R) 1%R l.

Definition vector_sum_over (n : nat) (l : list nat) (f : nat -> Vector) : Vector :=
  fold_right (fun i acc => zip_plus (f i) acc) (zeros n) l.

(** The reaction A + B = C of three species in a system of these three, the
    activities 2, 3 and 1, and the derivatives of the activities with
    respect to themselves. *)
Definition reaction_ABC : Reaction.Reaction :=
  Reaction.mk ["A"; "B"; "C"]%string [0; 1; 2]%nat [-1; -1; 1]%R.

Definition activities_ABC : VectorResult.VectorResult :=
  VectorResult.mk [2; 3; 1]%R [[1; 0; 0]; [0; 1; 0]; [0; 0; 1]]%R.

(** A system of the three species A, B and C, whose chemical potentials
    (in J/mol) are linear in the temperature. *)
Definition system_ABC : Multiphase.Multiphase :=
  Multiphase.mk
    [ Species.mk "A" (fun T _ => -1000 - 2 * T)%R;
      Species.mk "B" (fun T _ => -2000 - 3 * T)%R;
      Species.mk "C" (fun T _ => -4000 - 4 * T)%R ].

(** A unit converts to itself, and the conversion is the identity. *)
Definition unit_identity (convertible : string -> string -> bool)
    (convert : R -> string -> string -> R) (u : string) : Prop :=
  convertible u u = true /\ forall v : R, convert v u u = v.

(** No character of [s] is one of [delims]. *)
Fixpoint free_of (delims : string) (s : string) : bool :=
  match s with
  | EmptyString => true
  | String c s' => negb (StringUtils.is_any_of delims c) && free_of delims s'
  end.

End Props.

(** ** Reaktor/Core/PartitionUtils.cpp *)

Module Arma.

(** A dense matrix of the linear algebra library: its number of columns and
    the list of its rows. *)
Record mat : Type := mk {
  n_cols : nat;
  rows : list (list R)
}.

Definition n_rows (m : mat) : nat := List.length (rows m).

(** Every row has [n_cols] entries. *)
Definition shaped (m : mat) : bool :=
  forallb (fun r => Nat.eqb (List.length r) (n_cols m)) (rows m).

Definition in_range (n : nat) (indices : list nat) : bool :=
  forallb (fun i => Nat.ltb i n) indices.

(** [v.elem(indices)]: the entries of [v] at [indices]; an index outside
    [v] is refused. *)
Definition elem (v : list R) (indices : list nat) : result (list R) :=
  if in_range (List.length v) indices
  then Ok (map (fun i => nth i v 0%R) indices)
  else Fault.

(** [m.cols(indices)]: the columns of [m] at [indices]. *)
Definition cols (m : mat) (indices : list nat) : result mat :=
  if in_range (n_cols m) indices
  then Ok (mk (List.length indices)
              (map (fun r => map (fun j => nth j r 0%R) indices) (rows m)))
  else Fault.

(** [m.submat(row_indices, col_indices)] *)
Definition submat (m : mat) (row_indices col_indices : list nat) : result mat :=
  if in_range (n_rows m) row_indices && in_range (n_cols m) col_indices
  then Ok (mk (List.length col_indices)
              (map (fun i => map (fun j => nth j (nth i (rows m) []) 0%R)
                                 col_indices)
                   row_indices))
  else Fault.

(** The entry of [m] at row [i] and column [j]. *)
Definition entry (m : mat) (i j : nat) : R := nth j (nth i (rows m) []) 0%R.

End Arma.

Module Partition.
(** What the partition utilities read of a [Partition]: the indices of its
    equilibrium, kinetic and inert species and elements. *)
Record Partition : Type := mk {
  indicesEquilibriumSpecies : list nat;
  indicesKineticSpecies : list nat;
  indicesInertSpecies : list nat;
  indicesEquilibriumElements : list nat;
  indicesKineticElements : list nat;
  indicesInertElements : list nat
}.
End Partition.

Module PartitionUtils.

Import Partition.

Definition numEquilibriumSpecies (partition : Partition) : Z :=
  to_unsigned (Z.of_nat (List.length (indicesEquilibriumSpecies partition))).

Definition numKineticSpecies (partition : Partition) : Z :=
  to_unsigned (Z.of_nat (List.length (indicesKineticSpecies partition))).

Definition numInertSpecies (partition : Partition) : Z :=
  to_unsigned (Z.of_nat (List.length (indicesInertSpecies partition))).

Definition numSpecies (partition : Partition) : Z :=
  unsigned_add
    (unsigned_add (numEquilibriumSpecies partition) (numKineticSpecies partition))
    (numInertSpecies partition).

Definition equilibriumRows (partition : Partition) (vec : list R) : result (list R) :=
  Arma.elem vec (indicesEquilibriumSpecies partition).

Definition kineticRows (partition : Partition) (vec : list R) : result (list R) :=
  Arma.elem vec (indicesKineticSpecies partition).

Definition inertRows (partition : Partition) (vec : list R) : result (list R) :=
  Arma.elem vec (indicesInertSpecies partition).

Definition equilibriumCols (partition : Partition) (mat : Arma.mat) : result Arma.mat :=
  Arma.cols mat (indicesEquilibriumSpecies partition).

Definition kineticCols (partition : Partition) (mat : Arma.mat) : result Arma.mat :=
  Arma.cols mat (indicesKineticSpecies partition).

Definition inertCols (partition : Partition) (mat : Arma.mat) : result Arma.mat :=
  Arma.cols mat (indicesInertSpecies partition).

Definition equilibriumRowsCols (partition : Partition) (mat : Arma.mat)
  : result Arma.mat :=
  let indices := indicesEquilibriumSpecies partition in
  Arma.submat mat indices indices.

Definition kineticRowsCols (partition : Partition) (mat : Arma.mat)
  : result Arma.mat :=
  let indices := indicesKineticSpecies partition in
  Arma.submat mat indices indices.

Definition inertRowsCols (partition : Partition) (mat : Arma.mat)
  : result Arma.mat :=
  let indices := indicesInertSpecies partition in
  Arma.submat mat indices indices.

Definition equilibriumFormulaMatrix (partition : Partition) (mat : Arma.mat)
  : result Arma.mat :=
  let ispecies := indicesEquilibriumSpecies partition in
  let ielements := indicesEquilibriumElements partition in
  Arma.submat mat ielements ispecies.

Definition kineticFormulaMatrix (partition : Partition) (mat : Arma.mat)
  : result Arma.mat :=
  let ispecies := indicesKineticSpecies partition in
  let ielements := indicesKineticElements partition in
  Arma.submat mat ielements ispecies.

Definition inertFormulaMatrix (partition : Partition) (mat : Arma.mat)
  : result Arma.mat :=
  let ispecies := indicesInertSpecies partition in
  let ielements := indicesInertElements partition in
  Arma.submat mat ielements ispecies.

End PartitionUtils.

(** ** Further vocabulary of the statements *)

Module Terms.

Import ReactionUtils Props.

(** The reaction read from right to left: the same species, the opposite
    stoichiometries. *)
Definition reversed (r : Reaction.Reaction) : Reaction.Reaction :=
  Reaction.mk (Reaction.species r) (Reaction.indices r)
              (map Ropp (Reaction.stoichiometries r)).

(** The activities of the participating species are positive. *)
Definition positive_activities (r : Reaction.Reaction)
    (a : VectorResult.VectorResult) : Prop :=
  forall i, (i < List.length (Reaction.species r))%nat ->
    (0 < activity r a i)%R.

(** The three kinds of species of a partition are the [n] species of a
    system, each of one kind. *)
Definition covers (p : Partition.Partition) (n : nat) : Prop :=
  Permutation
    (Partition.indicesEquilibriumSpecies p
     ++ Partition.indicesKineticSpecies p
     ++ Partition.indicesInertSpecies p)
    (seq 0 n).

(** A square matrix equal to its transpose. *)
Definition symmetric (m : Arma.mat) : Prop :=
  Arma.n_rows m = Arma.n_cols m
  /\ forall i j, Arma.entry m i j = Arma.entry m j i.

(** The first word of an option. *)
Definition key (option : string) : string :=
  nth 0 (StringUtils.split option "= ") EmptyString.

(** A partition of four species into two, one and one, and a symmetric
    matrix of four rows. *)
Definition partition_211 : Partition.Partition :=
  Partition.mk [0; 2]%nat [3]%nat [1]%nat [0; 1]%nat [1]%nat [0]%nat.

Definition matrix_4 : Arma.mat :=
  Arma.mk 4 [[1; 2; 3; 4]; [2; 5; 6; 7]; [3; 6; 8; 9]; [4; 7; 9; 10]]%R.

(** A Helmholtz state of water with the derivatives 1, 2, ..., and a state
    point. *)
Definition helmholtz_sample : Water.WaterHelmholtzState :=
  Water.mkWaterHelmholtzState
    (ThermoScalar.const 1) (ThermoScalar.const 2) (ThermoScalar.const 3)
    (ThermoScalar.const 4) (ThermoScalar.const 5) (ThermoScalar.const 6)
    (ThermoScalar.const 7) (ThermoScalar.const 8) (ThermoScalar.const 9)
    (ThermoScalar.const 10).

Definition temperature_sample : Water.Temperature := ThermoScalar.mk 300 1 0.
Definition pressure_sample : Water.Pressure := ThermoScalar.mk 100000 0 1.
Definition density_sample : ThermoScalar.ThermoScalar := ThermoScalar.mk 2 0 0.

End Terms.

(** * Properties *)

Unset Implicit Arguments.

(** ** Loops and vector access *)

Section Loops.

Lemma at_nth (A : Type) (v : list A) (i : nat) (d : A) :
  (i < List.length v)%nat -> at_ v i = Ok (nth i v d).
Proof.
  intros Hi. unfold at_.
  rewrite (nth_error_nth' v d Hi). reflexivity.
Qed.

Lemma to_unsigned_small (z : Z) :
  (0 <= z < 2 ^ 32)%Z -> to_unsigned z = z.
Proof.
  intros Hz. unfold to_unsigned. apply Z.mod_small. exact Hz.
Qed.

End Loops.

(** ** Lookup of a species in a reaction *)

Section Lookup.

Import ReactionUtils Props.

Lemma find_offset_present (l : list string) (x : string) :
  In x l ->
  (find_offset l x < List.length l)%nat
  /\ nth_error l (find_offset l x) = Some x
  /\ forall j, (j < find_offset l x)%nat -> nth_error l j <> Some x.
Proof.
  induction l as [|y l IH]; intros Hin.
  - destruct Hin.
  - simpl. destruct (String.eqb y x) eqn:E.
    + apply String.eqb_eq in E. subst y.
      split; [lia|]. split; [reflexivity|]. intros j Hj. lia.
    + apply String.eqb_neq in E.
      destruct Hin as [->|Hin]; [congruence|].
      destruct (IH Hin) as (Hlt & Hnth & Hfirst).
      split; [lia|]. split; [exact Hnth|].
      intros [|j] Hj; simpl.
      * congruence.
      * apply Hfirst. lia.
Qed.

Lemma find_offset_absent (l : list string) (x : string) :
  ~ In x l -> find_offset l x = List.length l.
Proof.
  induction l as [|y l IH]; intros Hnin; simpl.
  - reflexivity.
  - destruct (String.eqb y x) eqn:E.
    + apply String.eqb_eq in E. subst y. exfalso. apply Hnin. left. reflexivity.
    + f_equal. apply IH. intros Hin. apply Hnin. right. exact Hin.
Qed.

Lemma reaction_ok_inv (r : Reaction.Reaction) :
  reaction_ok r = true ->
  List.length (Reaction.indices r) = List.length (Reaction.species r)
  /\ List.length (Reaction.stoichiometries r) = List.length (Reaction.species r)
  /\ numSpecies r = Z.of_nat (List.length (Reaction.species r)).
Proof.
  unfold reaction_ok. intros H.
  apply andb_prop in H. destruct H as [H H3].
  apply andb_prop in H. destruct H as [H1 H2].
  apply Nat.eqb_eq in H1. apply Nat.eqb_eq in H2. apply Z.ltb_lt in H3.
  split; [exact H1|]. split; [exact H2|].
  unfold numSpecies. apply to_unsigned_small. lia.
Qed.

(** C7.  In a reaction that satisfies its invariant, [indexSpecies] returns
    the position of the first occurrence of the species among the species of
    the reaction when it is there, and the number of species of the reaction
    otherwise; [containsSpecies] is true exactly when that index is strictly
    below the number of species; [stoichiometry] returns the coefficient at
    that position when the species participates and 0 otherwise, and in both
    cases it returns. *)
Theorem lookup_by_name_sentinel :
  forall (reaction : Reaction.Reaction) (species : string),
    reaction_ok reaction = true ->
    let index := indexSpecies reaction species in
    (In species (Reaction.species reaction) ->
       nth_error (Reaction.species reaction) index = Some species
       /\ (forall j, (j < index)%nat ->
             nth_error (Reaction.species reaction) j <> Some species)
       /\ (Z.of_nat index < numSpecies reaction)%Z
       /\ exists v, nth_error (Reaction.stoichiometries reaction) index = Some v
                    /\ stoichiometry reaction species = Ok v)
    /\ (~ In species (Reaction.species reaction) ->
          Z.of_nat index = numSpecies reaction
          /\ stoichiometry reaction species = Ok 0%R)
    /\ containsSpecies reaction species
       = (Z.of_nat index <? numSpecies reaction)%Z
    /\ (containsSpecies reaction species = true
        <-> In species (Reaction.species reaction)).
Proof.
  intros reaction species Hok index.
  destruct (reaction_ok_inv reaction Hok) as (_ & Hst & Hnum).
  assert (Hpresent : In species (Reaction.species reaction) ->
                     (Z.of_nat index < numSpecies reaction)%Z).
  { intros Hin. rewrite Hnum.
    destruct (find_offset_present _ _ Hin) as (Hlt & _).
    unfold index, indexSpecies. lia. }
  assert (Habsent : ~ In species (Reaction.species reaction) ->
                    Z.of_nat index = numSpecies reaction).
  { intros Hnin. rewrite Hnum. unfold index, indexSpecies.
    rewrite (find_offset_absent _ _ Hnin). reflexivity. }
  split; [|split; [|split]].
  - intros Hin.
    destruct (find_offset_present _ _ Hin) as (Hlt & Hnth & Hfirst).
    split; [exact Hnth|]. split; [exact Hfirst|].
    split; [exact (Hpresent Hin)|].
    assert (Hlt' : (index < List.length (Reaction.stoichiometries reaction))%nat).
    { rewrite Hst. exact Hlt. }
    exists (nth index (Reaction.stoichiometries reaction) 0%R).
    split.
    + apply nth_error_nth'. exact Hlt'.
    + unfold stoichiometry. fold index.
      apply Z.ltb_lt in Hpresent; [|exact Hin]. rewrite Hpresent.
      apply at_nth. exact Hlt'.
  - intros Hnin. split; [exact (Habsent Hnin)|].
    unfold stoichiometry. fold index.
    rewrite (Habsent Hnin), Z.ltb_irrefl. reflexivity.
  - reflexivity.
  - unfold containsSpecies. fold index. split.
    + intros Hlt. apply Z.ltb_lt in Hlt.
      destruct (in_dec string_dec species (Reaction.species reaction)) as [Hin|Hnin].
      * exact Hin.
      * specialize (Habsent Hnin). lia.
    + intros Hin. apply Z.ltb_lt. exact (Hpresent Hin).
Qed.

(** The lookup in the reaction A + B = C, for a species that is there and
    for one that is not. *)
Lemma lookup_by_name_sentinel_witness :
  nth_error (Reaction.species reaction_ABC) (indexSpecies reaction_ABC "B")
  = Some "B"%string
  /\ Z.of_nat (indexSpecies reaction_ABC "D") = numSpecies reaction_ABC
  /\ stoichiometry reaction_ABC "D" = Ok 0%R.
Proof.
  pose proof (lookup_by_name_sentinel reaction_ABC "B" eq_refl) as HB.
  pose proof (lookup_by_name_sentinel reaction_ABC "D" eq_refl) as HD.
  cbv zeta in HB, HD.
  destruct HB as (HB & _). destruct HD as (_ & HD & _).
  split.
  - apply HB. simpl. right. left. reflexivity.
  - apply HD. simpl.
    intros [H|[H|[H|[]]]]; discriminate H.
Defined.

End Lookup.

(** ** The equilibrium constant of a reaction *)

Section EquilibriumConstant.

Import ReactionUtils Props.

Variable universalGasConstant : R.

Lemma reaction_in_inv (m : Multiphase.Multiphase) (r : Reaction.Reaction) :
  reaction_in m r = true ->
  forall i, (i < List.length (Reaction.indices r))%nat ->
    (system_index r i < List.length (Multiphase.species m))%nat.
Proof.
  unfold reaction_in. intros H i Hi.
  rewrite forallb_forall in H.
  apply Nat.ltb_lt. apply H. unfold system_index. apply nth_In. exact Hi.
Qed.

(** The first loop collects the chemical potentials of the participating
    species, in the order of the reaction. *)
Lemma collect_potentials (m : Multiphase.Multiphase) (r : Reaction.Reaction) :
  reaction_in m r = true ->
  for_each (Reaction.indices r)
    (fun i acc =>
       s <- at_ (Multiphase.species m) i ;;
       Ok (acc ++ [Species.chemicalPotential s]))
    []
  = Ok (map (mu m r) (seq 0 (List.length (Reaction.indices r)))).
Proof.
  intros Hin.
  assert (Hgen : forall (todo : list nat) (done : list nat) acc,
             Reaction.indices r = done ++ todo ->
             acc = map (mu m r) (seq 0 (List.length done)) ->
             for_each todo
               (fun i acc =>
                  s <- at_ (Multiphase.species m) i ;;
                  Ok (acc ++ [Species.chemicalPotential s]))
               acc
             = Ok (map (mu m r) (seq 0 (List.length (Reaction.indices r))))).
  { induction todo as [|i todo IH]; intros done acc Hsplit Hacc.
    - simpl. rewrite app_nil_r in Hsplit. rewrite Hsplit, Hacc. reflexivity.
    - simpl.
      assert (Hpos : (List.length done < List.length (Reaction.indices r))%nat).
      { rewrite Hsplit, length_app. simpl. lia. }
      assert (Hidx : system_index r (List.length done) = i).
      { unfold system_index. rewrite Hsplit, app_nth2 by lia.
        rewrite Nat.sub_diag. reflexivity. }
      pose proof (reaction_in_inv m r Hin _ Hpos) as Hlt. rewrite Hidx in Hlt.
      unfold at_ at 1.
      destruct (nth_error (Multiphase.species m) i) as [s|] eqn:Es.
      + simpl. apply (IH (done ++ [i])).
        * rewrite <- app_assoc. exact Hsplit.
        * rewrite length_app. simpl. rewrite Nat.add_1_r, seq_S, map_app.
          rewrite Hacc. simpl. unfold mu at 3. rewrite Hidx, Es. reflexivity.
      + apply nth_error_None in Es. lia. }
  apply (Hgen (Reaction.indices r) [] []); reflexivity.
Qed.

(** The second loop adds the products of stoichiometry and potential. *)
Lemma accumulate_sum (vs : list R) (fs : list (R -> R -> R)) (f : nat -> R -> R -> R)
    (g : nat -> R) (T P : R) (n : nat) :
  forall (lo : nat) (s : R),
    (forall i, (lo <= i < lo + n)%nat -> at_ vs i = Ok (g i)) ->
    (forall i, (lo <= i < lo + n)%nat -> at_ fs i = Ok (f i)) ->
    for_range lo n
      (fun i sum =>
         vi <- at_ vs i ;;
         mui <- at_ fs i ;;
         Ok (sum + vi * mui T P)%R)
      s
    = Ok (s + sum_over (seq lo n) (fun i => g i * f i T P))%R.
Proof.
  induction n as [|n IH]; intros lo s Hv Hf; simpl.
  - f_equal. lra.
  - rewrite Hv, Hf by lia. simpl.
    rewrite IH.
    + f_equal. lra.
    + intros i Hi. apply Hv. lia.
    + intros i Hi. apply Hf. lia.
Qed.

(** C5.  For a reaction that satisfies its invariant and whose species are
    species of the system, [equilibriumConstant] returns a function, and at
    every temperature [T] other than 0 and every pressure [P] that function
    returns exp(-(sum over the participating species of stoichiometry times
    chemical potential at (T, P)) / (R T)), [R] the universal gas constant. *)
Theorem equilibriumConstant_formula :
  forall (multiphase : Multiphase.Multiphase) (reaction : Reaction.Reaction),
    reaction_ok reaction = true ->
    reaction_in multiphase reaction = true ->
    exists K : EquilibriumConstant,
      equilibriumConstant universalGasConstant multiphase reaction = Ok K
      /\ forall T P : R, T <> 0%R ->
           K T P =
           Ok (exp (- sum_over (participants reaction)
                        (fun i => nu reaction i * mu multiphase reaction i T P)
                    / (universalGasConstant * T)))%R.
Proof.
  intros multiphase reaction Hok Hin.
  destruct (reaction_ok_inv reaction Hok) as (Hidx & Hst & Hnum).
  unfold equilibriumConstant.
  rewrite (collect_potentials multiphase reaction Hin). simpl.
  eexists. split; [reflexivity|].
  intros T P _. cbv beta.
  rewrite Hnum, Nat2Z.id.
  rewrite (accumulate_sum (Reaction.stoichiometries reaction) _
             (mu multiphase reaction) (nu reaction) T P).
  - simpl. unfold participants. do 3 f_equal. lra.
  - intros i Hi. apply at_nth. lia.
  - intros i Hi.
    rewrite at_nth with (d := fun _ _ => 0%R)
      by (rewrite length_map, length_seq; lia).
    f_equal.
    rewrite (nth_indep _ _ (mu multiphase reaction 0))
      by (rewrite length_map, length_seq; lia).
    rewrite (map_nth (mu multiphase reaction)), seq_nth by lia.
    reflexivity.
Qed.

End EquilibriumConstant.

(** ** Vectors *)

Section Vectors.

Import LinAlg.

Lemma length_zeros (n : nat) : List.length (zeros n) = n.
Proof. unfold zeros. apply repeat_length. Qed.

Lemma length_scale (c : R) (v : Vector) : List.length (scale c v) = List.length v.
Proof. unfold scale. apply length_map. Qed.

Lemma length_zip_plus (u v : Vector) :
  List.length u = List.length v -> List.length (zip_plus u v) = List.length u.
Proof.
  revert v. induction u as [|x u IH]; intros [|y v] H; simpl in *;
    try reflexivity; try discriminate.
  f_equal. apply IH. lia.
Qed.

Lemma zip_plus_assoc (u v w : Vector) :
  zip_plus (zip_plus u v) w = zip_plus u (zip_plus v w).
Proof.
  revert v w. induction u as [|x u IH]; intros [|y v] [|z w]; simpl;
    try reflexivity.
  f_equal; [lra | apply IH].
Qed.

Lemma zip_plus_zeros_l (v : Vector) : zip_plus (zeros (List.length v)) v = v.
Proof.
  induction v as [|x v IH]; simpl; [reflexivity|].
  f_equal; [lra | exact IH].
Qed.

Lemma zip_plus_zeros_same (n : nat) (v : Vector) :
  List.length v = n -> zip_plus (zeros n) v = v.
Proof.
  intros H. subst n. apply zip_plus_zeros_l.
Qed.

Lemma zip_plus_scaled_zeros_r (c : R) (v : Vector) :
  zip_plus v (scale c (zeros (List.length v))) = v.
Proof.
  induction v as [|x v IH]; simpl; [reflexivity|].
  f_equal; [lra | exact IH].
Qed.

Lemma scale_zip_plus (c : R) (u v : Vector) :
  scale c (zip_plus u v) = zip_plus (scale c u) (scale c v).
Proof.
  revert v. induction u as [|x u IH]; intros [|y v]; simpl; try reflexivity.
  f_equal; [lra | apply IH].
Qed.

Lemma scale_scale (c d : R) (v : Vector) :
  scale c (scale d v) = scale (c * d) v.
Proof.
  induction v as [|x v IH]; simpl; [reflexivity|].
  f_equal; [lra | exact IH].
Qed.

Lemma length_vector_sum_over (n : nat) (l : list nat) (f : nat -> Vector) :
  (forall i, In i l -> List.length (f i) = n) ->
  List.length (Props.vector_sum_over n l f) = n.
Proof.
  induction l as [|i l IH]; intros Hf; simpl.
  - apply length_zeros.
  - rewrite length_zip_plus.
    + apply Hf. left. reflexivity.
    + rewrite IH.
      * apply Hf. left. reflexivity.
      * intros j Hj. apply Hf. right. exact Hj.
Qed.

End Vectors.

(** ** The reaction quotient *)

Section ReactionQuotient.

Import LinAlg ReactionUtils Props.

(** [std::pow], whatever it returns. *)
Variable pow : R -> R -> R.

Variable reaction : Reaction.Reaction.
Variable a : VectorResult.VectorResult.

Let n := List.length (VectorResult.val a).
Let N := List.length (Reaction.species reaction).

Hypothesis Hreaction : reaction_ok reaction = true.
Hypothesis Hcover : activities_cover reaction a = true.

Lemma cover_inv :
  List.length (VectorResult.grad a) = n
  /\ (forall i, (i < N)%nat -> (system_index reaction i < n)%nat)
  /\ (forall i, (i < N)%nat -> List.length (activity_row reaction a i) = n)
  /\ to_unsigned (Z.of_nat n) = Z.of_nat n.
Proof.
  destruct (reaction_ok_inv reaction Hreaction) as (Hidx & _ & _).
  unfold activities_cover in Hcover. fold n in Hcover.
  apply andb_prop in Hcover. destruct Hcover as [H H4].
  apply andb_prop in H. destruct H as [H H3].
  apply andb_prop in H. destruct H as [H1 H2].
  apply Nat.eqb_eq in H1. apply Z.ltb_lt in H4.
  rewrite forallb_forall in H2, H3.
  assert (Hsys : forall i, (i < N)%nat -> (system_index reaction i < n)%nat).
  { intros i Hi. apply Nat.ltb_lt. apply H3. unfold system_index.
    apply nth_In. rewrite Hidx. exact Hi. }
  split; [exact H1|]. split; [exact Hsys|]. split.
  - intros i Hi. apply Nat.eqb_eq. apply H2. unfold activity_row.
    apply nth_In. rewrite H1. apply Hsys. exact Hi.
  - apply to_unsigned_small. lia.
Qed.

(** The three reads of a loop body at a position of the reaction. *)
Lemma reads (i : nat) :
  (i < N)%nat ->
  at_ (Reaction.stoichiometries reaction) i = Ok (nu reaction i)
  /\ at_ (Reaction.indices reaction) i = Ok (system_index reaction i)
  /\ at_ (VectorResult.val a) (system_index reaction i) = Ok (activity reaction a i)
  /\ row (VectorResult.grad a) (system_index reaction i)
     = Ok (activity_row reaction a i).
Proof.
  intros Hi.
  destruct (reaction_ok_inv reaction Hreaction) as (Hidx & Hst & _).
  destruct cover_inv as (Hg & Hsys & _).
  split; [apply at_nth; fold N in Hst; lia|].
  split; [apply at_nth; fold N in Hidx; lia|].
  split; [apply at_nth; apply Hsys; exact Hi|].
  unfold row. apply at_nth. rewrite Hg. apply Hsys. exact Hi.
Qed.

Lemma value_loop (k : nat) :
  forall (lo : nat) (q : R) (g : Vector),
    (lo + k <= N)%nat ->
    for_range lo k
      (fun i Q =>
         vi <- at_ (Reaction.stoichiometries reaction) i ;;
         ii <- at_ (Reaction.indices reaction) i ;;
         ai <- at_ (VectorResult.val a) ii ;;
         Ok (ScalarResult.mk (ScalarResult.val Q * pow ai vi)
                             (ScalarResult.grad Q)))
      (ScalarResult.mk q g)
    = Ok (ScalarResult.mk
            (q * product_over (seq lo k)
                   (fun i => pow (activity reaction a i) (nu reaction i)))
            g).
Proof.
  induction k as [|k IH]; intros lo q g Hle; simpl.
  - do 2 f_equal. lra.
  - assert (Hlo : (lo < N)%nat) by lia.
    destruct (reads lo Hlo) as (Hv & Hi & Ha & _).
    rewrite Hv. simpl. rewrite Hi. simpl. rewrite Ha. simpl.
    rewrite IH by lia. do 2 f_equal. lra.
Qed.

Lemma gradient_loop (k : nat) :
  forall (lo : nat) (q : R) (g : Vector),
    (lo + k <= N)%nat ->
    List.length g = n ->
    for_range lo k
      (fun i Q =>
         vi <- at_ (Reaction.stoichiometries reaction) i ;;
         ii <- at_ (Reaction.indices reaction) i ;;
         ai <- at_ (VectorResult.val a) ii ;;
         r <- row (VectorResult.grad a) ii ;;
         g' <- plus_assign (ScalarResult.grad Q)
                 (scale (ScalarResult.val Q * vi / ai) r) ;;
         Ok (ScalarResult.mk (ScalarResult.val Q) g'))
      (ScalarResult.mk q g)
    = Ok (ScalarResult.mk q
            (zip_plus g
               (scale q
                  (vector_sum_over n (seq lo k)
                     (fun i => scale (nu reaction i / activity reaction a i)
                                     (activity_row reaction a i)))))).
Proof.
  induction k as [|k IH]; intros lo q g Hle Hg; simpl.
  - rewrite <- Hg, zip_plus_scaled_zeros_r. reflexivity.
  - assert (Hlo : (lo < N)%nat) by lia.
    destruct (reads lo Hlo) as (Hv & Hi & Ha & Hr).
    destruct cover_inv as (_ & _ & Hrow & _).
    rewrite Hv. simpl. rewrite Hi. simpl. rewrite Ha. simpl. rewrite Hr. simpl.
    unfold plus_assign.
    rewrite length_scale, Hg, Hrow by lia.
    rewrite Nat.eqb_refl. simpl.
    rewrite IH.
    + do 2 f_equal.
      rewrite scale_zip_plus, scale_scale, zip_plus_assoc.
      replace (q * nu reaction lo / activity reaction a lo)%R
        with (q * (nu reaction lo / activity reaction a lo))%R
        by (unfold Rdiv; ring).
      reflexivity.
    + lia.
    + rewrite length_zip_plus; [exact Hg|].
      rewrite length_scale, Hrow by lia. exact Hg.
Qed.

(** The value and the gradient that [reactionQuotient] returns. *)
Lemma reactionQuotient_returns :
  reactionQuotient pow reaction a
  = Ok (ScalarResult.mk
          (product_over (participants reaction)
             (fun i => pow (activity reaction a i) (nu reaction i)))
          (scale
             (product_over (participants reaction)
                (fun i => pow (activity reaction a i) (nu reaction i)))
             (vector_sum_over n (participants reaction)
                (fun i => scale (nu reaction i / activity reaction a i)
                                (activity_row reaction a i))))).
Proof.
  destruct (reaction_ok_inv reaction Hreaction) as (_ & _ & Hnum).
  destruct cover_inv as (_ & _ & Hrow & Hsize).
  unfold reactionQuotient. fold n. rewrite Hnum, Hsize, !Nat2Z.id. fold N.
  rewrite value_loop by lia. simpl.
  rewrite Rmult_1_l.
  rewrite gradient_loop by (try apply length_zeros; lia).
  unfold participants. fold N. do 2 f_equal.
  apply zip_plus_zeros_same.
  rewrite length_scale. apply length_vector_sum_over.
  intros i Hi. apply in_seq in Hi.
  rewrite length_scale. apply Hrow. lia.
Qed.

End ReactionQuotient.

Section ReactionQuotientClaim.

Import LinAlg ReactionUtils Props.

Lemma Rpower_minus_one (x : R) : (0 < x)%R -> Rpower x (-1) = (/ x)%R.
Proof.
  intros Hx. replace (-1)%R with (Ropp 1) by lra.
  rewrite Rpower_Ropp, Rpower_1 by exact Hx. reflexivity.
Qed.

(** C2.  With [std::pow] the real power on positive bases: for a reaction
    that satisfies its invariant and activities that cover the species of
    the system, [reactionQuotient] returns Q whose value is the product over
    the participating species of the reaction, and only these, of the
    activity raised to the stoichiometry, and whose gradient is Q times the
    sum over the participating species of (stoichiometry / activity) times
    the row of derivatives of that activity.  For the stoichiometries
    -1, -1, +1 of A, B, C and the activities 2, 3, 1, Q is 1/6 and its
    derivative with respect to the activity of A is -Q/2. *)
Theorem reactionQuotient_product_and_gradient :
  forall pow : R -> R -> R,
    (forall x y : R, (0 < x)%R -> pow x y = Rpower x y) ->
    (forall (reaction : Reaction.Reaction) (a : VectorResult.VectorResult),
       reaction_ok reaction = true ->
       activities_cover reaction a = true ->
       exists Q : ScalarResult.ScalarResult,
         reactionQuotient pow reaction a = Ok Q
         /\ ScalarResult.val Q
            = product_over (participants reaction)
                (fun i => pow (activity reaction a i) (nu reaction i))
         /\ ScalarResult.grad Q
            = scale (ScalarResult.val Q)
                (vector_sum_over (List.length (VectorResult.val a))
                   (participants reaction)
                   (fun i => scale (nu reaction i / activity reaction a i)
                                   (activity_row reaction a i))))
    /\ (exists Q : ScalarResult.ScalarResult,
          reactionQuotient pow reaction_ABC activities_ABC = Ok Q
          /\ ScalarResult.val Q = (1 / 6)%R
          /\ nth 0 (ScalarResult.grad Q) 0%R = (- ScalarResult.val Q / 2)%R).
Proof.
  intros pow Hpow. split.
  - intros reaction a Hok Hcover.
    eexists. split; [apply reactionQuotient_returns; assumption|].
    split; reflexivity.
  - eexists. split.
    + apply reactionQuotient_returns; reflexivity.
    + assert (Hval : product_over (participants reaction_ABC)
                       (fun i => pow (activity reaction_ABC activities_ABC i)
                                     (nu reaction_ABC i))
                     = (1 / 6)%R).
      { unfold participants, product_over, activity, nu, system_index. simpl.
        rewrite !Hpow by lra.
        rewrite !Rpower_minus_one by lra.
        rewrite Rpower_1 by lra. lra. }
      unfold ScalarResult.val, ScalarResult.grad. rewrite Hval.
      split; [reflexivity|].
      unfold participants, vector_sum_over, activity, activity_row, nu,
        system_index. simpl. lra.
Qed.

(** The quotient of A + B = C at the activities 2, 3, 1, with the real
    power function for [std::pow]. *)
Lemma reactionQuotient_product_and_gradient_witness :
  (exists Q : ScalarResult.ScalarResult,
     reactionQuotient Rpower reaction_ABC activities_ABC = Ok Q
     /\ ScalarResult.val Q
        = product_over (participants reaction_ABC)
            (fun i => Rpower (activity reaction_ABC activities_ABC i)
                             (nu reaction_ABC i))
     /\ ScalarResult.grad Q
        = scale (ScalarResult.val Q)
            (vector_sum_over 3 (participants reaction_ABC)
               (fun i => scale (nu reaction_ABC i
                                / activity reaction_ABC activities_ABC i)
                               (activity_row reaction_ABC activities_ABC i))))
  /\ (exists Q : ScalarResult.ScalarResult,
        reactionQuotient Rpower reaction_ABC activities_ABC = Ok Q
        /\ ScalarResult.val Q = (1 / 6)%R
        /\ nth 0 (ScalarResult.grad Q) 0%R = (- ScalarResult.val Q / 2)%R).
Proof.
  destruct (reactionQuotient_product_and_gradient Rpower
              (fun x y _ => eq_refl)) as [Hgeneral Hinstance].
  split.
  - exact (Hgeneral reaction_ABC activities_ABC eq_refl eq_refl).
  - exact Hinstance.
Defined.

End ReactionQuotientClaim.

Section EquilibriumConstantInstance.

Import ReactionUtils Props.

(** The equilibrium constant of A + B = C in the system of A, B and C. *)
Lemma equilibriumConstant_formula_witness :
  exists K : EquilibriumConstant,
    equilibriumConstant 8.3144621 system_ABC reaction_ABC = Ok K
    /\ K 300%R 100000%R =
       Ok (exp (- sum_over (participants reaction_ABC)
                    (fun i => nu reaction_ABC i
                              * mu system_ABC reaction_ABC i 300 100000)
                / (8.3144621 * 300)))%R.
Proof.
  destruct (equilibriumConstant_formula 8.3144621 system_ABC reaction_ABC
              eq_refl eq_refl) as (K & HK & Hformula).
  exists K. split; [exact HK|].
  apply Hformula. lra.
Defined.

End EquilibriumConstantInstance.

(** ** The thermodynamic state of water *)

Section WaterState.

Import ThermoScalar Water.

Variables (T : Temperature) (P : Pressure) (D : ThermoScalar).
Variable wh : WaterHelmholtzState.

Let wt := waterThermoState T P D wh.

(** C3.  [waterThermoState] sets the pressure derivatives
    pressureD = 2 D helmholtzD + D D helmholtzDD and
    pressureT = D D helmholtzTD, and from them the first-order density
    derivatives densityT = -pressureT / pressureD and
    densityP = 1 / pressureD; the same equations hold between the values. *)
Theorem density_derivatives_from_pressure :
  (pressureD wt = const 2 * D * helmholtzD wh + D * D * helmholtzDD wh)%ts
  /\ (pressureT wt = D * D * helmholtzTD wh)%ts
  /\ (densityT wt = - pressureT wt / pressureD wt)%ts
  /\ (densityP wt = const 1 / pressureD wt)%ts
  /\ (val (pressureD wt)
      = 2 * val D * val (helmholtzD wh) + val D * val D * val (helmholtzDD wh))%R
  /\ (val (pressureT wt) = val D * val D * val (helmholtzTD wh))%R
  /\ (val (densityT wt) = - val (pressureT wt) / val (pressureD wt))%R
  /\ (val (densityP wt) = 1 / val (pressureD wt))%R.
Proof.
  unfold wt, waterThermoState. cbn [pressureD pressureT densityT densityP].
  repeat split; reflexivity.
Qed.

(** C4.  [waterThermoState] returns the isochoric heat capacity
    cv = -T helmholtzTT and the isobaric heat capacity
    cp = cv + T / (D D) pressureT pressureT / pressureD; between the values,
    cp is cv plus T / D^2 times pressureT squared over pressureD. *)
Theorem heat_capacities :
  (cv wt = - T * helmholtzTT wh)%ts
  /\ (cp wt = cv wt + T / (D * D) * pressureT wt * pressureT wt / pressureD wt)%ts
  /\ (val (cv wt) = - val T * val (helmholtzTT wh))%R
  /\ (val (cp wt)
      = val (cv wt)
        + val T / (val D * val D) * val (pressureT wt) ^ 2 / val (pressureD wt))%R.
Proof.
  unfold wt, waterThermoState. cbn [cv cp pressureD pressureT].
  split; [reflexivity|]. split; [reflexivity|]. split; [reflexivity|].
  cbn [val add mul div opp const]. unfold Rdiv. ring.
Qed.

End WaterState.

(** ** The classification of the species of an aqueous mixture *)

Section Classification.

Import AqueousMixture.

Lemma unsigned_add_sizes (a b : Z) :
  unsigned_add (to_unsigned a) (to_unsigned b) = to_unsigned (a + b).
Proof.
  unfold unsigned_add, to_unsigned. symmetry. apply Z.add_mod. discriminate.
Qed.

Lemma neutral_or_charged (l : list AqueousSpecies.AqueousSpecies) :
  forall i : nat,
    Permutation (indices_from i is_neutral l ++ indices_from i is_charged l)
                (seq i (List.length l)).
Proof.
  induction l as [|s l IH]; intros i; simpl.
  - constructor.
  - change (is_charged s) with (negb (is_neutral s)).
    destruct (is_neutral s); simpl.
    + constructor. apply IH.
    + apply Permutation_sym, Permutation_cons_app, Permutation_sym, IH.
Qed.

Lemma cation_or_anion (l : list AqueousSpecies.AqueousSpecies) :
  forall i : nat,
    Permutation (indices_from i is_cation l ++ indices_from i is_anion l)
                (indices_from i is_charged l).
Proof.
  induction l as [|s l IH]; intros i; simpl.
  - constructor.
  - change (is_cation s) with (0 <? AqueousSpecies.charge s)%Z.
    change (is_anion s) with (AqueousSpecies.charge s <? 0)%Z.
    change (is_charged s) with (negb (AqueousSpecies.charge s =? 0)%Z).
    destruct (Z.ltb_spec 0 (AqueousSpecies.charge s)) as [Hpos|Hle].
    + replace (AqueousSpecies.charge s <? 0)%Z with false
        by (symmetry; apply Z.ltb_ge; lia).
      replace (AqueousSpecies.charge s =? 0)%Z with false
        by (symmetry; apply Z.eqb_neq; lia).
      simpl. constructor. apply IH.
    + destruct (Z.ltb_spec (AqueousSpecies.charge s) 0) as [Hneg|Hge].
      * replace (AqueousSpecies.charge s =? 0)%Z with false
          by (symmetry; apply Z.eqb_neq; lia).
        simpl. apply Permutation_sym, Permutation_cons_app, Permutation_sym, IH.
      * replace (AqueousSpecies.charge s =? 0)%Z with true
          by (symmetry; apply Z.eqb_eq; lia).
        simpl. apply IH.
Qed.

(** C8.  In the mixture constructed from any list of species, the number of
    neutral species plus the number of charged species, added as [unsigned],
    is the number of species, and the number of charged species is the
    number of cations plus the number of anions; the neutral and the charged
    indices are, without repetition, the indices of all the species, and the
    indices of the cations and of the anions are, without repetition, the
    indices of the charged species. *)
Theorem species_partition :
  forall species : list AqueousSpecies.AqueousSpecies,
    let m := make species in
    unsigned_add (numNeutralSpecies m) (numChargedSpecies m) = numSpecies m
    /\ numChargedSpecies m
       = unsigned_add (size (indicesCations m)) (size (indicesAnions m))
    /\ (List.length (indicesNeutralSpecies m)
        + List.length (indicesChargedSpecies m) = List.length species)%nat
    /\ (List.length (indicesCations m) + List.length (indicesAnions m)
        = List.length (indicesChargedSpecies m))%nat
    /\ Permutation (indicesNeutralSpecies m ++ indicesChargedSpecies m)
                   (seq 0 (List.length species))
    /\ NoDup (indicesNeutralSpecies m ++ indicesChargedSpecies m)
    /\ Permutation (indicesCations m ++ indicesAnions m)
                   (indicesChargedSpecies m)
    /\ NoDup (indicesCations m ++ indicesAnions m).
Proof.
  intros species m.
  pose proof (neutral_or_charged species 0) as Hall.
  pose proof (cation_or_anion species 0) as Hcharged.
  assert (Hlen1 : (List.length (indicesNeutralSpecies m)
                   + List.length (indicesChargedSpecies m)
                   = List.length species)%nat).
  { pose proof (Permutation_length Hall) as HL.
    rewrite length_app, length_seq in HL. exact HL. }
  assert (Hlen2 : (List.length (indicesCations m) + List.length (indicesAnions m)
                   = List.length (indicesChargedSpecies m))%nat).
  { pose proof (Permutation_length Hcharged) as HL.
    rewrite length_app in HL. exact HL. }
  assert (Hnodup : NoDup (indicesNeutralSpecies m ++ indicesChargedSpecies m)).
  { apply (Permutation_NoDup (Permutation_sym Hall)). apply seq_NoDup. }
  split; [|split; [|split; [|split; [|split; [|split; [|split]]]]]].
  - unfold numNeutralSpecies, numChargedSpecies, numSpecies, size.
    rewrite unsigned_add_sizes. f_equal.
    change (idx_neutral_species m) with (indicesNeutralSpecies m).
    change (idx_charged_species m) with (indicesChargedSpecies m).
    change (AqueousMixture.species m) with species. lia.
  - unfold numChargedSpecies, size.
    rewrite unsigned_add_sizes. f_equal.
    change (idx_charged_species m) with (indicesChargedSpecies m). lia.
  - exact Hlen1.
  - exact Hlen2.
  - exact Hall.
  - exact Hnodup.
  - exact Hcharged.
  - apply (Permutation_NoDup (Permutation_sym Hcharged)).
    apply NoDup_app_remove_l in Hnodup. exact Hnodup.
Qed.

End Classification.

(** ** Words of an option *)

Section Words.

Import StringUtils Props.
Open Scope string_scope.

Lemma append_empty_r (s : string) : s ++ "" = s.
Proof.
  induction s as [|c s IH]; simpl; [reflexivity|]. f_equal. exact IH.
Qed.

Lemma append_assoc (s t u : string) : (s ++ t) ++ u = s ++ (t ++ u).
Proof.
  induction s as [|c s IH]; simpl; [reflexivity|]. f_equal. exact IH.
Qed.

(** A string without delimiters is a single word. *)
Lemma split_from_free (delims : string) (str : string) :
  forall word : string,
    free_of delims str = true ->
    split_from delims word str = push_word (word ++ str) [].
Proof.
  induction str as [|c str IH]; intros word Hfree; simpl.
  - rewrite append_empty_r. reflexivity.
  - simpl in Hfree. apply andb_prop in Hfree. destruct Hfree as [Hc Hfree].
    apply negb_true_iff in Hc. rewrite Hc.
    rewrite IH by exact Hfree.
    rewrite append_assoc. reflexivity.
Qed.

Lemma split_free (delims : string) (str : string) :
  str <> "" -> free_of delims str = true -> split str delims = [str].
Proof.
  intros Hne Hfree. unfold split.
  rewrite split_from_free by exact Hfree. simpl.
  unfold push_word. destruct (String.eqb str "") eqn:E.
  - apply String.eqb_eq in E. contradiction.
  - reflexivity.
Qed.

Lemma tofloat_integer (s : string) (z : Z) :
  decimal s = (z, O) -> tofloat s = IZR z.
Proof.
  intros H. unfold tofloat. rewrite H.
  change (10 ^ Z.of_nat 0)%Z with 1%Z. unfold Rdiv. rewrite Rinv_1. ring.
Qed.

Lemma Rpower_10_minus_6 : Rpower 10 (-6) = (1 / 10 ^ 6)%R.
Proof.
  replace (-6)%R with (Ropp (INR 6)) by (simpl; lra).
  rewrite Rpower_Ropp, Rpower_pow by lra.
  unfold Rdiv. ring.
Qed.

End Words.

(** ** The mechanism string constructor *)

Section MechanismString.

Import StringUtils MineralMechanism Props.
Open Scope string_scope.

Variable convertible : string -> string -> bool.
Variable convert : R -> string -> string -> R.
Variable MineralCatalyst : Type.
Variable MineralCatalyst_of_string : string -> result MineralCatalyst.
Variables kappa0 Ea0 p0 q0 : R.

Local Notation "'parse'" :=
  (parse_option convertible convert MineralCatalyst_of_string).
Local Notation "'construct'" :=
  (of_string convertible convert MineralCatalyst_of_string kappa0 Ea0 p0 q0).
Local Notation "'start'" := (initial MineralCatalyst kappa0 Ea0 p0 q0).

Lemma for_each_app (A S : Type) (body : A -> S -> result S) (xs ys : list A) :
  forall s : S,
    for_each (xs ++ ys) body s = bind (for_each xs body s) (for_each ys body).
Proof.
  induction xs as [|x xs IH]; intros s; simpl.
  - reflexivity.
  - destruct (body x s) as [s'| |]; simpl; [apply IH | reflexivity | reflexivity].
Qed.

(** An option of one word: the guard lets it through and [words[1]] is read
    outside the vector. *)
Lemma parse_one_word (option word : string) (this : MineralMechanism MineralCatalyst) :
  is_catalyst option = false ->
  split option "= " = [word] ->
  parse option this = Fault.
Proof.
  intros Hcat Hwords. unfold parse_option. rewrite Hcat, Hwords. reflexivity.
Qed.

(** An option of two words whose key needs a unit. *)
Lemma parse_missing_unit (option quantity value : string)
    (this : MineralMechanism MineralCatalyst) :
  is_catalyst option = false ->
  split option "= " = [quantity; value] ->
  quantity = "logk" \/ quantity = "Ea" ->
  parse option this
  = Raise (mkException
      ("Cannot set the quantity " ++ quantity ++ " in the mineral mechanism.")
      ("The units of quantity " ++ quantity ++ " have not been specified.")).
Proof.
  intros Hcat Hwords Hq. unfold parse_option. rewrite Hcat, Hwords.
  destruct Hq as [-> | ->]; reflexivity.
Qed.

(** An option of more than three words. *)
Lemma parse_too_many_words (option : string) (this : MineralMechanism MineralCatalyst) :
  is_catalyst option = false ->
  (3 < List.length (split option "= "))%nat ->
  parse option this
  = Raise (mkException
      ("Cannot set the option " ++ option ++ " in the mineral mechanism.")
      "This option has incorrect format or is not supported.").
Proof.
  intros Hcat Hlen. unfold parse_option. rewrite Hcat.
  unfold guard. apply Nat.ltb_lt in Hlen. rewrite Hlen, orb_true_r.
  reflexivity.
Qed.

Lemma parse_logk (option value unit_ : string)
    (this : MineralMechanism MineralCatalyst) :
  is_catalyst option = false ->
  split option "= " = ["logk"; value; unit_] ->
  parse option this
  = setRateConstant convertible convert (Rpower 10 (tofloat value)) unit_ this.
Proof.
  intros Hcat Hwords. unfold parse_option. rewrite Hcat, Hwords. reflexivity.
Qed.

Lemma parse_Ea (option value unit_ : string)
    (this : MineralMechanism MineralCatalyst) :
  is_catalyst option = false ->
  split option "= " = ["Ea"; value; unit_] ->
  parse option this
  = setActivationEnergy convertible convert (tofloat value) unit_ this.
Proof.
  intros Hcat Hwords. unfold parse_option. rewrite Hcat, Hwords. reflexivity.
Qed.

Lemma setRateConstant_refused (value : R) (unit_ : string)
    (this : MineralMechanism MineralCatalyst) :
  convertible unit_ "mol/(m2*s)" = false ->
  setRateConstant convertible convert value unit_ this
  = Raise (mkException
      "Cannot set the kinetic rate constant of the mineral reaction"
      "The provided unit cannot be converted to mol/(m2*s)").
Proof.
  intros H. unfold setRateConstant, checkRateConstantUnit. rewrite H. reflexivity.
Qed.

Lemma setActivationEnergy_refused (value : R) (unit_ : string)
    (this : MineralMechanism MineralCatalyst) :
  convertible unit_ "kJ/mol" = false ->
  setActivationEnergy convertible convert value unit_ this
  = Raise (mkException
      "Cannot set the Arrhenius activation energy of the mineral reaction"
      "The provided unit cannot be converted to kJ/mol").
Proof.
  intros H. unfold setActivationEnergy, checkActivationEnergyUnit.
  rewrite H. reflexivity.
Qed.

(** The constructor stops at the first option that does not return. *)
Lemma construct_stops (mechanism : string) (pre post : list string)
    (option : string) (this : MineralMechanism MineralCatalyst)
    (r : result (MineralMechanism MineralCatalyst)) :
  split mechanism "," = (pre ++ option :: post)%list ->
  for_each pre parse start = Ok this ->
  parse option this = r ->
  (forall m, r <> Ok m) ->
  construct mechanism = r.
Proof.
  intros Hsplit Hpre Hopt Hr. unfold of_string.
  rewrite Hsplit, for_each_app, Hpre. simpl. rewrite Hopt.
  destruct r as [m| |]; try reflexivity.
  exfalso. exact (Hr m eq_refl).
Qed.

(** The constructor throws what the first failing option throws. *)
Lemma construct_raises (mechanism : string) (pre post : list string)
    (option : string) (this : MineralMechanism MineralCatalyst) (e : Exception) :
  split mechanism "," = (pre ++ option :: post)%list ->
  for_each pre parse start = Ok this ->
  parse option this = Raise e ->
  construct mechanism = Raise e.
Proof.
  intros Hsplit Hpre Hopt.
  apply (construct_stops mechanism pre post option this (Raise e));
    try assumption.
  intros m H. discriminate H.
Qed.

(** The string of options separated by spaces only is one option of nine
    words. *)
Lemma spaces_only_rejected :
  construct "logk=-6 Ea=50 kJ/mol p=1 q=2"
  = Raise (mkException
      "Cannot set the option logk=-6 Ea=50 kJ/mol p=1 q=2 in the mineral mechanism."
      "This option has incorrect format or is not supported.").
Proof.
  apply construct_raises
    with (pre := []) (post := []) (option := "logk=-6 Ea=50 kJ/mol p=1 q=2")
         (this := start).
  - reflexivity.
  - reflexivity.
  - rewrite parse_too_many_words.
    + reflexivity.
    + reflexivity.
    + vm_compute. lia.
Qed.

Lemma parse_p (option value : string) (this : MineralMechanism MineralCatalyst) :
  is_catalyst option = false ->
  split option "= " = ["p"; value] ->
  parse option this = Ok (setPowerP (tofloat value) this).
Proof.
  intros Hcat Hwords. unfold parse_option. rewrite Hcat, Hwords. reflexivity.
Qed.

Lemma parse_q (option value : string) (this : MineralMechanism MineralCatalyst) :
  is_catalyst option = false ->
  split option "= " = ["q"; value] ->
  parse option this = Ok (setPowerQ (tofloat value) this).
Proof.
  intros Hcat Hwords. unfold parse_option. rewrite Hcat, Hwords. reflexivity.
Qed.

Lemma setRateConstant_accepted (value : R) (unit_ : string)
    (this : MineralMechanism MineralCatalyst) :
  convertible unit_ "mol/(m2*s)" = true ->
  setRateConstant convertible convert value unit_ this
  = Ok (mk (convert value unit_ "mol/(m2*s)") (Ea this) (p this) (q this)
           (catalysts this)).
Proof.
  intros H. unfold setRateConstant, checkRateConstantUnit. rewrite H. reflexivity.
Qed.

Lemma setActivationEnergy_accepted (value : R) (unit_ : string)
    (this : MineralMechanism MineralCatalyst) :
  convertible unit_ "kJ/mol" = true ->
  setActivationEnergy convertible convert value unit_ this
  = Ok (mk (kappa this) (convert value unit_ "kJ/mol") (p this) (q this)
           (catalysts this)).
Proof.
  intros H. unfold setActivationEnergy, checkActivationEnergyUnit.
  rewrite H. reflexivity.
Qed.

(** C1, as the code has it.  The string
    "logk=-6 Ea=50 kJ/mol p=1 q=2" is not accepted: its options are not
    separated by commas, so that it is one option of nine words, refused
    with the error of an unknown option.  With commas and logk still
    without a unit, "logk=-6,Ea=50 kJ/mol,p=1,q=2" is refused with the error
    of a missing unit.  With the options separated by commas and the unit of
    logk given, and in a units library where mol/(m2*s) and kJ/mol convert
    to themselves unchanged, the string
    "logk=-6 mol/(m2*s),Ea=50 kJ/mol,p=1,q=2" is accepted and yields
    kappa = 10^-6, Ea = 50, p = 1 and q = 2, and no catalyst. *)
Theorem comma_separated_mechanism_parses :
  unit_identity convertible convert "mol/(m2*s)" ->
  unit_identity convertible convert "kJ/mol" ->
  construct "logk=-6 Ea=50 kJ/mol p=1 q=2"
  = Raise (mkException
      "Cannot set the option logk=-6 Ea=50 kJ/mol p=1 q=2 in the mineral mechanism."
      "This option has incorrect format or is not supported.")
  /\ construct "logk=-6,Ea=50 kJ/mol,p=1,q=2"
     = Raise (mkException
         "Cannot set the quantity logk in the mineral mechanism."
         "The units of quantity logk have not been specified.")
  /\ exists m : MineralMechanism MineralCatalyst,
       construct "logk=-6 mol/(m2*s),Ea=50 kJ/mol,p=1,q=2" = Ok m
       /\ kappa m = (1 / 10 ^ 6)%R
       /\ Ea m = 50%R
       /\ p m = 1%R
       /\ q m = 2%R
       /\ catalysts m = [].
Proof.
  intros [Hrate_ok Hrate_id] [Henergy_ok Henergy_id].
  split; [apply spaces_only_rejected|].
  split.
  { apply construct_raises
      with (pre := []) (post := ["Ea=50 kJ/mol"; "p=1"; "q=2"])
           (option := "logk=-6") (this := start).
    - reflexivity.
    - reflexivity.
    - apply parse_missing_unit with (quantity := "logk") (value := "-6").
      + reflexivity.
      + reflexivity.
      + left. reflexivity. }
  unfold of_string.
  change (split "logk=-6 mol/(m2*s),Ea=50 kJ/mol,p=1,q=2" ",")
    with ["logk=-6 mol/(m2*s)"; "Ea=50 kJ/mol"; "p=1"; "q=2"].
  cbn [for_each].
  rewrite parse_logk with (value := "-6") (unit_ := "mol/(m2*s)")
    by reflexivity.
  rewrite setRateConstant_accepted by exact Hrate_ok. cbn [bind].
  rewrite parse_Ea with (value := "50") (unit_ := "kJ/mol") by reflexivity.
  rewrite setActivationEnergy_accepted by exact Henergy_ok. cbn [bind].
  rewrite parse_p with (value := "1") by reflexivity. cbn [bind].
  rewrite parse_q with (value := "2") by reflexivity.
  eexists. split; [reflexivity|].
  cbn [kappa Ea p q catalysts setPowerP setPowerQ initial].
  rewrite Hrate_id, Henergy_id.
  rewrite tofloat_integer with (s := "-6") (z := (-6)%Z) by reflexivity.
  rewrite tofloat_integer with (s := "50") (z := (50)%Z) by reflexivity.
  rewrite tofloat_integer with (s := "1") (z := (1)%Z) by reflexivity.
  rewrite tofloat_integer with (s := "2") (z := (2)%Z) by reflexivity.
  split; [apply Rpower_10_minus_6|].
  repeat split; reflexivity.
Qed.

(** Options of a key and a value.  Such an option, with the key logk or Ea
    and no unit, throws the error of a missing unit that names the quantity;
    [setRateConstant] and [setActivationEnergy] throw an error that names
    the target unit when the given unit is not convertible to mol/(m2*s),
    respectively kJ/mol, and so does an option of the constructor with such
    a unit; the constructor throws what its first failing option throws, and
    so it does for the string "p=1,Ea=50,q=2". *)
Theorem missing_or_unconvertible_unit_is_an_error :
  (forall (option quantity value : string) (this : MineralMechanism MineralCatalyst),
     is_catalyst option = false ->
     split option "= " = [quantity; value] ->
     quantity = "logk" \/ quantity = "Ea" ->
     parse option this
     = Raise (mkException
         ("Cannot set the quantity " ++ quantity ++ " in the mineral mechanism.")
         ("The units of quantity " ++ quantity ++ " have not been specified.")))
  /\ (forall (value : R) (unit_ : string) (this : MineralMechanism MineralCatalyst),
        convertible unit_ "mol/(m2*s)" = false ->
        setRateConstant convertible convert value unit_ this
        = Raise (mkException
            "Cannot set the kinetic rate constant of the mineral reaction"
            "The provided unit cannot be converted to mol/(m2*s)"))
  /\ (forall (value : R) (unit_ : string) (this : MineralMechanism MineralCatalyst),
        convertible unit_ "kJ/mol" = false ->
        setActivationEnergy convertible convert value unit_ this
        = Raise (mkException
            "Cannot set the Arrhenius activation energy of the mineral reaction"
            "The provided unit cannot be converted to kJ/mol"))
  /\ (forall (option value unit_ : string) (this : MineralMechanism MineralCatalyst),
        is_catalyst option = false ->
        split option "= " = ["logk"; value; unit_] ->
        convertible unit_ "mol/(m2*s)" = false ->
        parse option this
        = Raise (mkException
            "Cannot set the kinetic rate constant of the mineral reaction"
            "The provided unit cannot be converted to mol/(m2*s)"))
  /\ (forall (option value unit_ : string) (this : MineralMechanism MineralCatalyst),
        is_catalyst option = false ->
        split option "= " = ["Ea"; value; unit_] ->
        convertible unit_ "kJ/mol" = false ->
        parse option this
        = Raise (mkException
            "Cannot set the Arrhenius activation energy of the mineral reaction"
            "The provided unit cannot be converted to kJ/mol"))
  /\ (forall (mechanism : string) (pre post : list string) (option : string)
             (this : MineralMechanism MineralCatalyst) (e : Exception),
        split mechanism "," = (pre ++ option :: post)%list ->
        for_each pre parse start = Ok this ->
        parse option this = Raise e ->
        construct mechanism = Raise e)
  /\ construct "p=1,Ea=50,q=2"
     = Raise (mkException
         "Cannot set the quantity Ea in the mineral mechanism."
         "The units of quantity Ea have not been specified.").
Proof.
  split; [exact parse_missing_unit|].
  split; [exact setRateConstant_refused|].
  split; [exact setActivationEnergy_refused|].
  split.
  { intros option value unit_ this Hcat Hwords Hunit.
    rewrite (parse_logk option value unit_ this Hcat Hwords).
    apply setRateConstant_refused. exact Hunit. }
  split.
  { intros option value unit_ this Hcat Hwords Hunit.
    rewrite (parse_Ea option value unit_ this Hcat Hwords).
    apply setActivationEnergy_refused. exact Hunit. }
  split; [exact construct_raises|].
  apply construct_raises
    with (pre := ["p=1"]) (post := ["q=2"]) (option := "Ea=50")
         (this := setPowerP (tofloat "1") start).
  - reflexivity.
  - cbn [for_each]. rewrite parse_p with (value := "1") by reflexivity.
    reflexivity.
  - apply parse_missing_unit with (quantity := "Ea") (value := "50").
    + reflexivity.
    + reflexivity.
    + right. reflexivity.
Qed.

Lemma guard_cases (words : list string) :
  guard words = true <-> words = [] \/ (3 < List.length words)%nat.
Proof.
  unfold guard. rewrite orb_true_iff, Nat.eqb_eq, Nat.ltb_lt.
  split; intros [H|H]; auto.
  - left. destruct words; [reflexivity|discriminate H].
  - left. subst words. reflexivity.
Qed.

(** C10.  The constructor does not return for every string.  An option that
    is not sent to the catalyst constructor, is not empty and has neither
    '=' nor a space is a single word: the guard, which refuses the options of
    no word and of more than three words only, lets it through, [words[1]]
    is read outside the vector of one word, and no error has been thrown
    before; the constructor reaches that read when the options before it are
    accepted.  The string "foo" is such an option. *)
Theorem single_word_option_reads_out_of_range :
  (forall (option : string) (this : MineralMechanism MineralCatalyst),
     is_catalyst option = false ->
     option <> "" ->
     free_of "= " option = true ->
     split option "= " = [option]
     /\ guard (split option "= ") = false
     /\ at_ (split option "= ") 1 = Fault
     /\ parse option this = Fault)
  /\ (forall (mechanism : string) (pre post : list string) (option : string)
             (this : MineralMechanism MineralCatalyst),
        split mechanism "," = (pre ++ option :: post)%list ->
        for_each pre parse start = Ok this ->
        is_catalyst option = false ->
        option <> "" ->
        free_of "= " option = true ->
        construct mechanism = Fault)
  /\ (forall words : list string,
        guard words = true <-> words = [] \/ (3 < List.length words)%nat)
  /\ construct "foo" = Fault.
Proof.
  assert (Hoption : forall (option : string)
                      (this : MineralMechanism MineralCatalyst),
             is_catalyst option = false ->
             option <> "" ->
             free_of "= " option = true ->
             split option "= " = [option]
             /\ guard (split option "= ") = false
             /\ at_ (split option "= ") 1 = Fault
             /\ parse option this = Fault).
  { intros option this Hcat Hne Hfree.
    pose proof (split_free "= " option Hne Hfree) as Hwords.
    rewrite Hwords.
    split; [reflexivity|]. split; [reflexivity|]. split; [reflexivity|].
    apply parse_one_word with (word := option); assumption. }
  split; [exact Hoption|].
  split; [|split; [exact guard_cases|reflexivity]].
  intros mechanism pre post option this Hsplit Hpre Hcat Hne Hfree.
  apply (construct_stops mechanism pre post option this Fault Hsplit Hpre).
  - apply Hoption; assumption.
  - intros m H. discriminate H.
Qed.

End MechanismString.

Section MechanismInstances.

Import StringUtils MineralMechanism Props.
Open Scope string_scope.

(** The string without commas in the units library where every unit converts to
    every unit unchanged: it is refused; and no units library, parser of
    catalysts or default members make the constructor accept it. *)
Lemma spaces_only_mechanism_refused :
  of_string (fun _ _ => true) (fun v _ _ => v) (@Ok string) 0 0 1 1
    "logk=-6 Ea=50 kJ/mol p=1 q=2"
  = Raise (mkException
      "Cannot set the option logk=-6 Ea=50 kJ/mol p=1 q=2 in the mineral mechanism."
      "This option has incorrect format or is not supported.")
  /\ ~ (exists (convertible : string -> string -> bool)
               (convert : R -> string -> string -> R)
               (catalyst : string -> result string)
               (kappa0 Ea0 p0 q0 : R) (m : MineralMechanism string),
          of_string convertible convert catalyst kappa0 Ea0 p0 q0
            "logk=-6 Ea=50 kJ/mol p=1 q=2" = Ok m
          /\ kappa m = (1 / 10 ^ 6)%R /\ Ea m = 50%R
          /\ p m = 1%R /\ q m = 2%R).
Proof.
  split.
  - apply spaces_only_rejected.
  - intros (convertible & convert & catalyst & k0 & e0 & p0 & q0 & m & H & _).
    rewrite spaces_only_rejected in H. discriminate H.
Qed.

(** The comma-separated string, in the units library where a unit converts
    to itself only, and unchanged. *)
Lemma comma_separated_mechanism_parses_witness :
  exists m : MineralMechanism string,
    of_string String.eqb (fun v _ _ => v) (@Ok string) 0 0 1 1
      "logk=-6 mol/(m2*s),Ea=50 kJ/mol,p=1,q=2" = Ok m
    /\ kappa m = (1 / 10 ^ 6)%R
    /\ Ea m = 50%R
    /\ p m = 1%R
    /\ q m = 2%R
    /\ catalysts m = [].
Proof.
  refine (proj2 (proj2 (comma_separated_mechanism_parses String.eqb
                          (fun v _ _ => v) string (@Ok string) 0 0 1 1 _ _))).
  - split; [reflexivity | intros v; reflexivity].
  - split; [reflexivity | intros v; reflexivity].
Defined.

(** The options "Ea=50" and "logk=-6", the units "kg" and "m", and the
    strings "q=2,logk=-6" and "p=1,Ea=50,q=2". *)
Lemma missing_or_unconvertible_unit_is_an_error_witness :
  parse_option String.eqb (fun v _ _ => v) (@Ok string) "Ea=50"
    (initial string 0 0 1 1)
  = Raise (mkException
      "Cannot set the quantity Ea in the mineral mechanism."
      "The units of quantity Ea have not been specified.")
  /\ setRateConstant String.eqb (fun v _ _ => v) 1 "kg" (initial string 0 0 1 1)
     = Raise (mkException
         "Cannot set the kinetic rate constant of the mineral reaction"
         "The provided unit cannot be converted to mol/(m2*s)")
  /\ setActivationEnergy String.eqb (fun v _ _ => v) 1 "m" (initial string 0 0 1 1)
     = Raise (mkException
         "Cannot set the Arrhenius activation energy of the mineral reaction"
         "The provided unit cannot be converted to kJ/mol")
  /\ parse_option String.eqb (fun v _ _ => v) (@Ok string) "logk=-6 kg"
       (initial string 0 0 1 1)
     = Raise (mkException
         "Cannot set the kinetic rate constant of the mineral reaction"
         "The provided unit cannot be converted to mol/(m2*s)")
  /\ parse_option String.eqb (fun v _ _ => v) (@Ok string) "Ea=50 m"
       (initial string 0 0 1 1)
     = Raise (mkException
         "Cannot set the Arrhenius activation energy of the mineral reaction"
         "The provided unit cannot be converted to kJ/mol")
  /\ of_string String.eqb (fun v _ _ => v) (@Ok string) 0 0 1 1 "q=2,logk=-6"
     = Raise (mkException
         "Cannot set the quantity logk in the mineral mechanism."
         "The units of quantity logk have not been specified.")
  /\ of_string String.eqb (fun v _ _ => v) (@Ok string) 0 0 1 1 "p=1,Ea=50,q=2"
     = Raise (mkException
         "Cannot set the quantity Ea in the mineral mechanism."
         "The units of quantity Ea have not been specified.").
Proof.
  destruct (missing_or_unconvertible_unit_is_an_error String.eqb
              (fun v _ _ => v) string (@Ok string) 0 0 1 1)
    as (Hmissing & Hrate & Henergy & Hlogk & HEa & Hfirst & Hstring).
  split.
  { apply (Hmissing "Ea=50" "Ea" "50").
    - reflexivity.
    - reflexivity.
    - right. reflexivity. }
  split; [apply Hrate; reflexivity|].
  split; [apply Henergy; reflexivity|].
  split.
  { apply (Hlogk "logk=-6 kg" "-6" "kg"); reflexivity. }
  split.
  { apply (HEa "Ea=50 m" "50" "m"); reflexivity. }
  split; [|exact Hstring].
  exact (Hfirst "q=2,logk=-6" ["q=2"] [] "logk=-6"
           (setPowerQ (tofloat "2") (initial string 0 0 1 1)) _
           eq_refl eq_refl
           (Hmissing "logk=-6" "logk" "-6" _ eq_refl eq_refl
              (or_introl eq_refl))).
Defined.

(** The option "foo", alone and after the option "p=1". *)
Lemma single_word_option_reads_out_of_range_witness :
  split "foo" "= " = ["foo"]
  /\ parse_option String.eqb (fun v _ _ => v) (@Ok string) "foo"
       (initial string 0 0 1 1) = Fault
  /\ of_string String.eqb (fun v _ _ => v) (@Ok string) 0 0 1 1 "p=1,foo" = Fault
  /\ of_string String.eqb (fun v _ _ => v) (@Ok string) 0 0 1 1 "foo" = Fault.
Proof.
  destruct (single_word_option_reads_out_of_range String.eqb
              (fun v _ _ => v) string (@Ok string) 0 0 1 1)
    as (Hoption & Hstring & _ & Hfoo).
  assert (Hne : "foo" <> "") by discriminate.
  destruct (Hoption "foo" (initial string 0 0 1 1) eq_refl Hne eq_refl)
    as (Hwords & _ & _ & Hparse).
  split; [exact Hwords|]. split; [exact Hparse|]. split; [|exact Hfoo].
  exact (Hstring "p=1,foo" ["p=1"] [] "foo"
           (setPowerP (tofloat "1") (initial string 0 0 1 1))
           eq_refl eq_refl eq_refl Hne eq_refl).
Defined.

End MechanismInstances.

(** * Further properties *)

(** ** Species lookup and stoichiometry *)

Section StoichiometryAndContainment.

Import ReactionUtils Props.

(** X1.  Whatever the reaction, a species for which [stoichiometry] returns
    a coefficient other than 0 is one that [containsSpecies] reports, and a
    species that [containsSpecies] does not report has the stoichiometry 0. *)
Theorem stoichiometry_agrees_with_containsSpecies :
  forall (reaction : Reaction.Reaction) (species : string),
    (forall v : R,
       stoichiometry reaction species = Ok v -> v <> 0%R ->
       containsSpecies reaction species = true)
    /\ (containsSpecies reaction species = false ->
        stoichiometry reaction species = Ok 0%R).
Proof.
  intros reaction species. unfold stoichiometry, containsSpecies.
  destruct (Z.of_nat (indexSpecies reaction species) <? numSpecies reaction)%Z.
  - split; [reflexivity | discriminate].
  - split; [|reflexivity].
    intros v Hv Hne. exfalso. apply Hne. congruence.
Qed.

Lemma stoichiometry_agrees_with_containsSpecies_witness :
  containsSpecies reaction_ABC "A" = true
  /\ stoichiometry reaction_ABC "D" = Ok 0%R.
Proof.
  destruct (stoichiometry_agrees_with_containsSpecies reaction_ABC "A")
    as [Hthere _].
  destruct (stoichiometry_agrees_with_containsSpecies reaction_ABC "D")
    as [_ Hnot].
  split.
  - apply (Hthere (-1)%R); [reflexivity | lra].
  - apply Hnot. reflexivity.
Defined.

End StoichiometryAndContainment.

(** ** Loops that read vectors *)

Section FaultingLoops.

(** A loop whose body never throws returns or leaves the range of a vector,
    and it does the latter when one of its steps does. *)
Lemma for_range_fault (S : Type) (body : nat -> S -> result S) (k : nat) :
  forall (lo i : nat) (s : S),
    (lo <= i < lo + k)%nat ->
    (forall j s' e, body j s' <> Raise e) ->
    (forall s', body i s' = Fault) ->
    for_range lo k body s = Fault.
Proof.
  induction k as [|k IH]; intros lo i s Hi Hnever Hfault; simpl.
  - lia.
  - destruct (Nat.eq_dec lo i) as [->|Hne].
    + rewrite Hfault. reflexivity.
    + destruct (body lo s) as [s'|e|] eqn:E; simpl.
      * apply (IH (Datatypes.S lo) i); [lia | exact Hnever | exact Hfault].
      * exfalso. exact (Hnever lo s e E).
      * reflexivity.
Qed.

Lemma for_each_fault (A S : Type) (body : A -> S -> result S) (bad : A -> bool)
    (xs : list A) :
  forall s : S,
    (forall x s' e, body x s' <> Raise e) ->
    (forall x s', bad x = true -> body x s' = Fault) ->
    existsb bad xs = true ->
    for_each xs body s = Fault.
Proof.
  induction xs as [|x xs IH]; intros s Hnever Hfault Hex; simpl in *.
  - discriminate Hex.
  - destruct (bad x) eqn:Ebad.
    + rewrite (Hfault x s Ebad). reflexivity.
    + simpl in Hex.
      destruct (body x s) as [s'|e|] eqn:E; simpl.
      * apply IH; assumption.
      * exfalso. exact (Hnever x s e E).
      * reflexivity.
Qed.

Lemma at_never_raises (A : Type) (v : list A) (i : nat) (e : Exception) :
  at_ v i <> Raise e.
Proof.
  unfold at_. destruct (nth_error v i); discriminate.
Qed.

Lemma at_outside (A : Type) (v : list A) (i : nat) :
  (List.length v <= i)%nat -> at_ v i = Fault.
Proof.
  intros Hi. unfold at_.
  apply nth_error_None in Hi. rewrite Hi. reflexivity.
Qed.

End FaultingLoops.

(** ** More on the reaction quotient *)

Section ReactionQuotientMore.

Import LinAlg ReactionUtils Props Terms.

Variable pow : R -> R -> R.

(** X2.  For a reaction that satisfies its invariant and activities that
    cover the system, the gradient that [reactionQuotient] returns has one
    entry for each species of the system. *)
Theorem reactionQuotient_gradient_size :
  forall (reaction : Reaction.Reaction) (a : VectorResult.VectorResult),
    reaction_ok reaction = true ->
    activities_cover reaction a = true ->
    exists Q : ScalarResult.ScalarResult,
      reactionQuotient pow reaction a = Ok Q
      /\ List.length (ScalarResult.grad Q) = List.length (VectorResult.val a).
Proof.
  intros reaction a Hok Hcover.
  rewrite (reactionQuotient_returns pow reaction a Hok Hcover).
  eexists. split; [reflexivity|].
  destruct (cover_inv reaction a Hok Hcover) as (_ & _ & Hrow & _).
  cbn [ScalarResult.grad].
  rewrite length_scale. apply length_vector_sum_over.
  intros i Hi. apply in_seq in Hi.
  rewrite length_scale. apply Hrow. lia.
Qed.

(** X3.  When some index of a reaction that satisfies its invariant is not
    an index of the activities, [reactionQuotient] reads the activities
    outside their range: it checks no index. *)
Theorem reactionQuotient_index_outside :
  forall (reaction : Reaction.Reaction) (a : VectorResult.VectorResult) (i : nat),
    reaction_ok reaction = true ->
    (i < List.length (Reaction.species reaction))%nat ->
    (List.length (VectorResult.val a) <= system_index reaction i)%nat ->
    reactionQuotient pow reaction a = Fault.
Proof.
  intros reaction a i Hok Hi Hout.
  destruct (reaction_ok_inv reaction Hok) as (Hidx & Hst & Hnum).
  unfold reactionQuotient. rewrite Hnum, Nat2Z.id.
  rewrite for_range_fault with (i := i).
  - reflexivity.
  - lia.
  - intros j Q e.
    destruct (at_ (Reaction.stoichiometries reaction) j) as [vj| |] eqn:E1;
      simpl; try discriminate.
    + destruct (at_ (Reaction.indices reaction) j) as [ij| |] eqn:E2;
        simpl; try discriminate.
      * destruct (at_ (VectorResult.val a) ij) as [aj| |] eqn:E3;
          simpl; try discriminate.
        exfalso. exact (at_never_raises _ _ _ _ E3).
      * exfalso. exact (at_never_raises _ _ _ _ E2).
    + exfalso. exact (at_never_raises _ _ _ _ E1).
  - intros Q.
    rewrite at_nth with (d := 0%R) by lia. simpl.
    rewrite at_nth with (d := O) by lia. simpl.
    fold (system_index reaction i).
    rewrite at_outside by exact Hout. reflexivity.
Qed.

End ReactionQuotientMore.

Section ReactionQuotientInstances.

Import LinAlg ReactionUtils Props Terms.

Lemma reactionQuotient_gradient_size_witness :
  exists Q : ScalarResult.ScalarResult,
    reactionQuotient Rpower reaction_ABC activities_ABC = Ok Q
    /\ List.length (ScalarResult.grad Q) = 3%nat.
Proof.
  exact (reactionQuotient_gradient_size Rpower reaction_ABC activities_ABC
           eq_refl eq_refl).
Defined.

Lemma reactionQuotient_index_outside_witness :
  reactionQuotient Rpower
    (Reaction.mk ["A"; "B"; "C"]%string [0; 5; 2]%nat [-1; -1; 1]%R)
    activities_ABC
  = Fault.
Proof.
  apply (reactionQuotient_index_outside Rpower
           (Reaction.mk ["A"; "B"; "C"]%string [0; 5; 2]%nat [-1; -1; 1]%R)
           activities_ABC 1).
  - reflexivity.
  - simpl. lia.
  - unfold Props.system_index. simpl. lia.
Defined.

End ReactionQuotientInstances.

Section ReactionQuotientLogarithm.

Import LinAlg ReactionUtils Props Terms.

(** [std::pow] agrees with the real power function on a positive base. *)
Variable pow : R -> R -> R.
Hypothesis pow_positive : forall x y : R, (0 < x)%R -> pow x y = Rpower x y.

Lemma product_of_powers (act v : nat -> R) (l : list nat) :
  (forall i, In i l -> (0 < act i)%R) ->
  product_over l (fun i => pow (act i) (v i))
  = exp (sum_over l (fun i => v i * ln (act i)))%R.
Proof.
  induction l as [|i l IH]; intros Hpos; simpl.
  - symmetry. apply exp_0.
  - rewrite IH by (intros j Hj; apply Hpos; right; exact Hj).
    rewrite pow_positive by (apply Hpos; left; reflexivity).
    unfold Rpower. rewrite <- exp_plus. reflexivity.
Qed.

Lemma nth_map_Ropp (l : list R) :
  forall i : nat, nth i (map Ropp l) 0%R = (- nth i l 0)%R.
Proof.
  induction l as [|x l IH]; intros [|i]; simpl; try lra.
  apply IH.
Qed.

Lemma sum_over_opposite (l : list nat) (f : nat -> R) :
  sum_over l (fun i => - f i)%R = (- sum_over l f)%R.
Proof.
  induction l as [|i l IH]; simpl.
  - lra.
  - rewrite IH. lra.
Qed.

Lemma sum_over_ext (l : list nat) (f g : nat -> R) :
  (forall i, f i = g i) -> sum_over l f = sum_over l g.
Proof.
  intros H. induction l as [|i l IH]; simpl.
  - reflexivity.
  - rewrite H, IH. reflexivity.
Qed.

Lemma reversed_ok (r : Reaction.Reaction) :
  reaction_ok (reversed r) = reaction_ok r.
Proof.
  unfold reaction_ok, reversed. simpl. rewrite length_map. reflexivity.
Qed.

(** X4.  With [std::pow] the real power on positive bases and positive
    activities of the participating species, the value of the reaction
    quotient is positive and its logarithm is the sum over the participating
    species of stoichiometry times the logarithm of the activity. *)
Theorem reactionQuotient_logarithm :
  forall (reaction : Reaction.Reaction) (a : VectorResult.VectorResult),
    reaction_ok reaction = true ->
    activities_cover reaction a = true ->
    positive_activities reaction a ->
    exists Q : ScalarResult.ScalarResult,
      reactionQuotient pow reaction a = Ok Q
      /\ (0 < ScalarResult.val Q)%R
      /\ ln (ScalarResult.val Q)
         = sum_over (participants reaction)
             (fun i => nu reaction i * ln (activity reaction a i))%R.
Proof.
  intros reaction a Hok Hcover Hpos.
  rewrite (reactionQuotient_returns pow reaction a Hok Hcover).
  eexists. split; [reflexivity|].
  cbn [ScalarResult.val].
  rewrite product_of_powers.
  - split; [apply exp_pos | apply ln_exp].
  - intros i Hi. apply in_seq in Hi. apply Hpos. lia.
Qed.

(** X5.  Under the same conditions the quotient of the reaction read from
    right to left, with the opposite stoichiometries, is the inverse of the
    quotient of the reaction: their product is 1. *)
Theorem reactionQuotient_of_reversed :
  forall (reaction : Reaction.Reaction) (a : VectorResult.VectorResult),
    reaction_ok reaction = true ->
    activities_cover reaction a = true ->
    positive_activities reaction a ->
    exists Q Q' : ScalarResult.ScalarResult,
      reactionQuotient pow reaction a = Ok Q
      /\ reactionQuotient pow (reversed reaction) a = Ok Q'
      /\ (ScalarResult.val Q' * ScalarResult.val Q = 1)%R.
Proof.
  intros reaction a Hok Hcover Hpos.
  assert (Hok' : reaction_ok (reversed reaction) = true).
  { rewrite reversed_ok. exact Hok. }
  assert (Hcover' : activities_cover (reversed reaction) a = true)
    by exact Hcover.
  rewrite (reactionQuotient_returns pow reaction a Hok Hcover).
  rewrite (reactionQuotient_returns pow (reversed reaction) a Hok' Hcover').
  eexists. eexists. split; [reflexivity|]. split; [reflexivity|].
  cbn [ScalarResult.val].
  assert (Hin : forall i, In i (participants reaction) ->
                          (0 < activity reaction a i)%R).
  { intros i Hi. apply in_seq in Hi. apply Hpos. lia. }
  change (participants (reversed reaction)) with (participants reaction).
  change (activity (reversed reaction) a) with (activity reaction a).
  rewrite !product_of_powers by exact Hin.
  rewrite <- exp_plus.
  rewrite (sum_over_ext (participants reaction)
             (fun i => nu (reversed reaction) i * ln (activity reaction a i))%R
             (fun i => - (nu reaction i * ln (activity reaction a i)))%R).
  - rewrite sum_over_opposite, Rplus_opp_l. apply exp_0.
  - intros i. unfold nu, reversed. cbn [Reaction.stoichiometries].
    rewrite nth_map_Ropp. lra.
Qed.

End ReactionQuotientLogarithm.

Section ReactionQuotientLogarithmInstances.

Import LinAlg ReactionUtils Props Terms.

Lemma activities_ABC_positive : positive_activities reaction_ABC activities_ABC.
Proof.
  intros i Hi. unfold activity, system_index. simpl in Hi.
  destruct i as [|[|[|i]]]; simpl; try lra. lia.
Defined.

Lemma reactionQuotient_logarithm_witness :
  exists Q : ScalarResult.ScalarResult,
    reactionQuotient Rpower reaction_ABC activities_ABC = Ok Q
    /\ (0 < ScalarResult.val Q)%R
    /\ ln (ScalarResult.val Q)
       = sum_over (participants reaction_ABC)
           (fun i => nu reaction_ABC i
                     * ln (activity reaction_ABC activities_ABC i))%R.
Proof.
  exact (reactionQuotient_logarithm Rpower (fun x y _ => eq_refl)
           reaction_ABC activities_ABC eq_refl eq_refl
           activities_ABC_positive).
Defined.

Lemma reactionQuotient_of_reversed_witness :
  exists Q Q' : ScalarResult.ScalarResult,
    reactionQuotient Rpower reaction_ABC activities_ABC = Ok Q
    /\ reactionQuotient Rpower (reversed reaction_ABC) activities_ABC = Ok Q'
    /\ (ScalarResult.val Q' * ScalarResult.val Q = 1)%R.
Proof.
  exact (reactionQuotient_of_reversed Rpower (fun x y _ => eq_refl)
           reaction_ABC activities_ABC eq_refl eq_refl
           activities_ABC_positive).
Defined.

End ReactionQuotientLogarithmInstances.

(** ** More on the equilibrium constant *)

Section EquilibriumConstantMore.

Import ReactionUtils Props Terms.

Variable universalGasConstant : R.

(** The function that [equilibriumConstant] returns and its values. *)
Lemma equilibriumConstant_returns (m : Multiphase.Multiphase)
    (r : Reaction.Reaction) :
  reaction_ok r = true ->
  reaction_in m r = true ->
  exists K : EquilibriumConstant,
    equilibriumConstant universalGasConstant m r = Ok K
    /\ forall T P : R,
         K T P =
         Ok (exp (- sum_over (participants r) (fun i => nu r i * mu m r i T P)
                  / (universalGasConstant * T)))%R.
Proof.
  intros Hok Hin.
  destruct (reaction_ok_inv r Hok) as (Hidx & Hst & Hnum).
  unfold equilibriumConstant.
  rewrite (collect_potentials m r Hin). simpl.
  eexists. split; [reflexivity|].
  intros T P. cbv beta.
  rewrite Hnum, Nat2Z.id.
  rewrite (accumulate_sum (Reaction.stoichiometries r) _ (mu m r) (nu r) T P).
  - simpl. unfold participants. do 3 f_equal. lra.
  - intros i Hi. apply at_nth. lia.
  - intros i Hi.
    rewrite at_nth with (d := fun _ _ => 0%R)
      by (rewrite length_map, length_seq; lia).
    f_equal.
    rewrite (nth_indep _ _ (mu m r 0))
      by (rewrite length_map, length_seq; lia).
    rewrite (map_nth (mu m r)), seq_nth by lia.
    reflexivity.
Qed.

(** X6.  For a reaction that satisfies its invariant and whose species are
    species of the system, where R T is not 0 the equilibrium
    constant is positive, and its logarithm is minus the sum of
    stoichiometry times chemical potential, divided by R T. *)
Theorem equilibriumConstant_logarithm :
  forall (multiphase : Multiphase.Multiphase) (reaction : Reaction.Reaction)
         (T P : R),
    reaction_ok reaction = true ->
    reaction_in multiphase reaction = true ->
    (universalGasConstant * T <> 0)%R ->
    exists (K : EquilibriumConstant) (k : R),
      equilibriumConstant universalGasConstant multiphase reaction = Ok K
      /\ K T P = Ok k
      /\ (0 < k)%R
      /\ ln k
         = (- sum_over (participants reaction)
                (fun i => nu reaction i * mu multiphase reaction i T P)
            / (universalGasConstant * T))%R.
Proof.
  intros multiphase reaction T P Hok Hin _.
  destruct (equilibriumConstant_returns multiphase reaction Hok Hin)
    as (K & HK & Hval).
  exists K. eexists. split; [exact HK|]. split; [apply Hval|].
  split; [apply exp_pos | apply ln_exp].
Qed.

(** X7.  Under the same conditions the equilibrium constant of the reaction
    read from right to left is the inverse of the equilibrium constant of
    the reaction: their product is 1. *)
Theorem equilibriumConstant_of_reversed :
  forall (multiphase : Multiphase.Multiphase) (reaction : Reaction.Reaction)
         (T P : R),
    reaction_ok reaction = true ->
    reaction_in multiphase reaction = true ->
    (universalGasConstant * T <> 0)%R ->
    exists (K K' : EquilibriumConstant) (k k' : R),
      equilibriumConstant universalGasConstant multiphase reaction = Ok K
      /\ equilibriumConstant universalGasConstant multiphase (reversed reaction)
         = Ok K'
      /\ K T P = Ok k
      /\ K' T P = Ok k'
      /\ (k' * k = 1)%R.
Proof.
  intros multiphase reaction T P Hok Hin _.
  assert (Hok' : reaction_ok (reversed reaction) = true).
  { rewrite reversed_ok. exact Hok. }
  assert (Hin' : reaction_in multiphase (reversed reaction) = true)
    by exact Hin.
  destruct (equilibriumConstant_returns multiphase reaction Hok Hin)
    as (K & HK & Hval).
  destruct (equilibriumConstant_returns multiphase (reversed reaction) Hok' Hin')
    as (K' & HK' & Hval').
  exists K, K'. eexists. eexists.
  split; [exact HK|]. split; [exact HK'|].
  split; [apply Hval|]. split; [apply Hval'|].
  rewrite <- exp_plus.
  change (participants (reversed reaction)) with (participants reaction).
  rewrite (sum_over_ext (participants reaction)
             (fun i => nu (reversed reaction) i
                       * mu multiphase (reversed reaction) i T P)%R
             (fun i => - (nu reaction i * mu multiphase reaction i T P))%R).
  - rewrite sum_over_opposite.
    replace (- - sum_over (participants reaction)
                   (fun i => nu reaction i * mu multiphase reaction i T P)
             / (universalGasConstant * T)
             + - sum_over (participants reaction)
                   (fun i => nu reaction i * mu multiphase reaction i T P)
               / (universalGasConstant * T))%R
      with 0%R by (unfold Rdiv; ring).
    apply exp_0.
  - intros i.
    change (mu multiphase (reversed reaction) i) with (mu multiphase reaction i).
    unfold nu, reversed. cbn [Reaction.stoichiometries].
    rewrite nth_map_Ropp. lra.
Qed.

Lemma collect_outside (m : Multiphase.Multiphase) (l : list nat) :
  forall acc : list (R -> R -> R),
    forallb (fun i => Nat.ltb i (List.length (Multiphase.species m))) l = false ->
    for_each l
      (fun i acc =>
         s <- at_ (Multiphase.species m) i ;;
         Ok (acc ++ [Species.chemicalPotential s]))
      acc
    = Fault.
Proof.
  intros acc Hbad.
  apply for_each_fault
    with (bad := fun i => negb (Nat.ltb i (List.length (Multiphase.species m)))).
  - intros i acc' e.
    destruct (at_ (Multiphase.species m) i) as [s| |] eqn:E; simpl;
      try discriminate.
    exfalso. exact (at_never_raises _ _ _ _ E).
  - intros i acc' Hi. apply negb_true_iff, Nat.ltb_ge in Hi.
    rewrite at_outside by exact Hi. reflexivity.
  - clear acc. induction l as [|i l IH]; simpl in *.
    + discriminate Hbad.
    + destruct (Nat.ltb i (List.length (Multiphase.species m))); simpl in *.
      * apply IH. exact Hbad.
      * reflexivity.
Qed.

(** X8.  [equilibriumConstant] returns a function exactly when every index
    of the reaction is the index of a species of the system; otherwise it
    reads the species of the system outside their range. *)
Theorem equilibriumConstant_returns_iff :
  forall (multiphase : Multiphase.Multiphase) (reaction : Reaction.Reaction),
    ((exists K : EquilibriumConstant,
        equilibriumConstant universalGasConstant multiphase reaction = Ok K)
     <-> reaction_in multiphase reaction = true)
    /\ (reaction_in multiphase reaction = false ->
        equilibriumConstant universalGasConstant multiphase reaction = Fault).
Proof.
  intros multiphase reaction.
  assert (Hbad : reaction_in multiphase reaction = false ->
                 equilibriumConstant universalGasConstant multiphase reaction
                 = Fault).
  { intros Hout. unfold equilibriumConstant.
    rewrite collect_outside by exact Hout. reflexivity. }
  split; [|exact Hbad].
  split.
  - intros [K HK].
    destruct (reaction_in multiphase reaction) eqn:E; [reflexivity|].
    rewrite (Hbad eq_refl) in HK. discriminate HK.
  - intros Hin. unfold equilibriumConstant.
    rewrite (collect_potentials multiphase reaction Hin). simpl.
    eexists. reflexivity.
Qed.

(** X9.  A reaction without species: its quotient is 1 with a gradient of
    zeros, one for each activity, whatever the activities, and its
    equilibrium constant is 1 wherever R T is not 0. *)
Theorem reaction_without_species :
  forall (pow : R -> R -> R) (multiphase : Multiphase.Multiphase)
         (reaction : Reaction.Reaction) (a : VectorResult.VectorResult),
    reaction_ok reaction = true ->
    Reaction.species reaction = [] ->
    (Z.of_nat (List.length (VectorResult.val a)) < 2 ^ 32)%Z ->
    reactionQuotient pow reaction a
    = Ok (ScalarResult.mk 1 (LinAlg.zeros (List.length (VectorResult.val a))))
    /\ exists K : EquilibriumConstant,
         equilibriumConstant universalGasConstant multiphase reaction = Ok K
         /\ forall T P : R,
              (universalGasConstant * T <> 0)%R -> K T P = Ok 1%R.
Proof.
  intros pow multiphase reaction a Hok Hempty Hsize.
  destruct (reaction_ok_inv reaction Hok) as (Hidx & Hst & Hnum).
  rewrite Hempty in Hidx, Hnum. simpl in Hidx, Hnum.
  split.
  - unfold reactionQuotient. rewrite Hnum. simpl.
    rewrite to_unsigned_small by lia. rewrite Nat2Z.id. reflexivity.
  - assert (Hin : reaction_in multiphase reaction = true).
    { unfold reaction_in.
      destruct (Reaction.indices reaction); [reflexivity | discriminate Hidx]. }
    destruct (equilibriumConstant_returns multiphase reaction Hok Hin)
      as (K & HK & Hval).
    exists K. split; [exact HK|].
    intros T P _. rewrite Hval. unfold participants. rewrite Hempty. simpl.
    f_equal. replace (- 0 / (universalGasConstant * T))%R with 0%R
      by (unfold Rdiv; ring).
    apply exp_0.
Qed.

End EquilibriumConstantMore.

Section EquilibriumConstantInstances.

Import ReactionUtils Props Terms.

Lemma equilibriumConstant_logarithm_witness :
  exists (K : EquilibriumConstant) (k : R),
    equilibriumConstant 8.3144621 system_ABC reaction_ABC = Ok K
    /\ K 300%R 100000%R = Ok k
    /\ (0 < k)%R
    /\ ln k
       = (- sum_over (participants reaction_ABC)
              (fun i => nu reaction_ABC i
                        * mu system_ABC reaction_ABC i 300 100000)
          / (8.3144621 * 300))%R.
Proof.
  apply (equilibriumConstant_logarithm 8.3144621 system_ABC reaction_ABC
           300 100000 eq_refl eq_refl).
  lra.
Defined.

Lemma equilibriumConstant_of_reversed_witness :
  exists (K K' : EquilibriumConstant) (k k' : R),
    equilibriumConstant 8.3144621 system_ABC reaction_ABC = Ok K
    /\ equilibriumConstant 8.3144621 system_ABC (reversed reaction_ABC) = Ok K'
    /\ K 300%R 100000%R = Ok k
    /\ K' 300%R 100000%R = Ok k'
    /\ (k' * k = 1)%R.
Proof.
  apply (equilibriumConstant_of_reversed 8.3144621 system_ABC reaction_ABC
           300 100000 eq_refl eq_refl).
  lra.
Defined.

Lemma equilibriumConstant_returns_iff_witness :
  equilibriumConstant 8.3144621 system_ABC
    (Reaction.mk ["A"; "B"; "C"]%string [0; 5; 2]%nat [-1; -1; 1]%R)
  = Fault.
Proof.
  apply (proj2 (equilibriumConstant_returns_iff 8.3144621 system_ABC
                  (Reaction.mk ["A"; "B"; "C"]%string [0; 5; 2]%nat
                               [-1; -1; 1]%R))).
  reflexivity.
Defined.

Lemma reaction_without_species_witness :
  reactionQuotient Rpower (Reaction.mk [] [] []) activities_ABC
  = Ok (ScalarResult.mk 1 (LinAlg.zeros 3))
  /\ exists K : EquilibriumConstant,
       equilibriumConstant 8.3144621 system_ABC (Reaction.mk [] [] []) = Ok K
       /\ K 300%R 100000%R = Ok 1%R.
Proof.
  destruct (reaction_without_species 8.3144621 Rpower system_ABC
              (Reaction.mk [] [] []) activities_ABC eq_refl eq_refl)
    as (HQ & K & HK & Hone).
  - simpl. lia.
  - split; [exact HQ|]. exists K. split; [exact HK|]. apply Hone. lra.
Defined.

End EquilibriumConstantInstances.

(** ** The rows and columns of a partition *)

Section PartitionSelections.

Import Partition PartitionUtils Terms.

Lemma map_nth_seq_all (v : list R) :
  map (fun i => nth i v 0%R) (seq 0 (List.length v)) = v.
Proof.
  induction v as [|x v IH]; simpl; [reflexivity|].
  f_equal. rewrite <- seq_shift, map_map. exact IH.
Qed.

Lemma in_range_of_subset (n : nat) (l : list nat) :
  (forall i, In i l -> In i (seq 0 n)) -> Arma.in_range n l = true.
Proof.
  intros H. unfold Arma.in_range. apply forallb_forall.
  intros i Hi. apply Nat.ltb_lt. apply H, in_seq in Hi. lia.
Qed.

(** X10.  When the equilibrium, kinetic and inert species of a partition
    are the [n] species of a system, each of one kind, [numSpecies] returns
    [n] as an [unsigned]: [n] itself below 2^32. *)
Theorem numSpecies_of_partition :
  forall (partition : Partition) (n : nat),
    covers partition n ->
    numSpecies partition = to_unsigned (Z.of_nat n)
    /\ ((Z.of_nat n < 2 ^ 32)%Z -> numSpecies partition = Z.of_nat n).
Proof.
  intros partition n Hcov.
  assert (Hnum : numSpecies partition = to_unsigned (Z.of_nat n)).
  { unfold numSpecies, numEquilibriumSpecies, numKineticSpecies,
      numInertSpecies.
    rewrite !unsigned_add_sizes. f_equal.
    pose proof (Permutation_length Hcov) as HL.
    rewrite !length_app, length_seq in HL. lia. }
  split; [exact Hnum|].
  intros Hn. rewrite Hnum. apply to_unsigned_small. lia.
Qed.

(** X11.  Under the same condition, for a vector with one entry for each
    species, [equilibriumRows], [kineticRows] and [inertRows] return, and
    their results together hold each entry of the vector exactly once. *)
Theorem rows_of_partition :
  forall (partition : Partition) (vec : list R),
    covers partition (List.length vec) ->
    exists e k i : list R,
      equilibriumRows partition vec = Ok e
      /\ kineticRows partition vec = Ok k
      /\ inertRows partition vec = Ok i
      /\ List.length e = List.length (indicesEquilibriumSpecies partition)
      /\ List.length k = List.length (indicesKineticSpecies partition)
      /\ List.length i = List.length (indicesInertSpecies partition)
      /\ Permutation (e ++ k ++ i) vec.
Proof.
  intros partition vec Hcov.
  unfold equilibriumRows, kineticRows, inertRows, Arma.elem.
  rewrite !in_range_of_subset.
  - do 3 eexists.
    split; [reflexivity|]. split; [reflexivity|]. split; [reflexivity|].
    rewrite !length_map.
    split; [reflexivity|]. split; [reflexivity|]. split; [reflexivity|].
    rewrite <- !map_app.
    apply Permutation_trans
      with (map (fun i => nth i vec 0%R) (seq 0 (List.length vec))).
    + apply Permutation_map. exact Hcov.
    + rewrite map_nth_seq_all. apply Permutation_refl.
  - intros j Hj. apply (Permutation_in j Hcov).
    apply in_or_app. right. apply in_or_app. right. exact Hj.
  - intros j Hj. apply (Permutation_in j Hcov).
    apply in_or_app. right. apply in_or_app. left. exact Hj.
  - intros j Hj. apply (Permutation_in j Hcov).
    apply in_or_app. left. exact Hj.
Qed.

Lemma nth_map_inside (A : Type) (f : nat -> A) (l : list nat) (i : nat) (d : A) :
  (i < List.length l)%nat -> nth i (map f l) d = f (nth i l O).
Proof.
  intros Hi.
  rewrite (nth_indep (map f l) d (f O)) by (rewrite length_map; exact Hi).
  apply map_nth.
Qed.

Lemma entry_of_selection (g : nat -> nat -> R) (rs cs : list nat) (c i j : nat) :
  Arma.entry (Arma.mk c (map (fun i => map (fun j => g i j) cs) rs)) i j
  = if Nat.ltb i (List.length rs) && Nat.ltb j (List.length cs)
    then g (nth i rs O) (nth j cs O)
    else 0%R.
Proof.
  unfold Arma.entry. cbn [Arma.rows].
  destruct (Nat.ltb_spec i (List.length rs)) as [Hi|Hi].
  - rewrite (nth_map_inside _ (fun i => map (fun j => g i j) cs) rs i [] Hi).
    destruct (Nat.ltb_spec j (List.length cs)) as [Hj|Hj]; simpl.
    + apply (nth_map_inside _ (fun j => g (nth i rs O) j) cs j 0%R Hj).
    + apply nth_overflow. rewrite length_map. exact Hj.
  - rewrite (nth_overflow (map _ rs)) by (rewrite length_map; exact Hi).
    simpl. destruct j; reflexivity.
Qed.

Lemma submat_symmetric (m : Arma.mat) (indices : list nat) :
  symmetric m ->
  Arma.in_range (Arma.n_rows m) indices = true ->
  exists s : Arma.mat,
    Arma.submat m indices indices = Ok s
    /\ Arma.n_rows s = List.length indices
    /\ symmetric s.
Proof.
  intros [Hsquare Hsym] Hrange. unfold Arma.submat.
  rewrite <- Hsquare, Hrange. simpl.
  eexists. split; [reflexivity|].
  split; [unfold Arma.n_rows; cbn [Arma.rows]; apply length_map|].
  split.
  - unfold Arma.n_rows. cbn [Arma.rows Arma.n_cols]. apply length_map.
  - intros i j.
    change (fun i0 => map (fun j0 => nth j0 (nth i0 (Arma.rows m) []) 0%R) indices)
      with (fun i0 => map (fun j0 => Arma.entry m i0 j0) indices).
    rewrite !entry_of_selection.
    rewrite andb_comm.
    destruct (Nat.ltb j (List.length indices) && Nat.ltb i (List.length indices));
      [apply Hsym | reflexivity].
Qed.

(** X12.  The square block that [equilibriumRowsCols], [kineticRowsCols] or
    [inertRowsCols] cuts from a symmetric matrix, with indices that are rows
    of the matrix, is symmetric and has one row for each index. *)
Theorem rowsCols_of_symmetric :
  forall (partition : Partition) (mat : Arma.mat),
    symmetric mat ->
    (Arma.in_range (Arma.n_rows mat) (indicesEquilibriumSpecies partition) = true ->
     exists s : Arma.mat,
       equilibriumRowsCols partition mat = Ok s
       /\ Arma.n_rows s = List.length (indicesEquilibriumSpecies partition)
       /\ symmetric s)
    /\ (Arma.in_range (Arma.n_rows mat) (indicesKineticSpecies partition) = true ->
        exists s : Arma.mat,
          kineticRowsCols partition mat = Ok s
          /\ Arma.n_rows s = List.length (indicesKineticSpecies partition)
          /\ symmetric s)
    /\ (Arma.in_range (Arma.n_rows mat) (indicesInertSpecies partition) = true ->
        exists s : Arma.mat,
          inertRowsCols partition mat = Ok s
          /\ Arma.n_rows s = List.length (indicesInertSpecies partition)
          /\ symmetric s).
Proof.
  intros partition mat Hsym.
  split; [|split]; intros Hrange; apply submat_symmetric; assumption.
Qed.

End PartitionSelections.

Section PartitionInstances.

Import Partition PartitionUtils Terms.

Lemma partition_211_covers : covers partition_211 4.
Proof.
  unfold covers. simpl. apply perm_skip.
  apply Permutation_sym.
  apply (Permutation_cons_app [2; 3]%nat [] 1%nat).
  apply Permutation_refl.
Defined.

Lemma matrix_4_symmetric : symmetric matrix_4.
Proof.
  split; [reflexivity|].
  intros i j. unfold Arma.entry, matrix_4. cbn [Arma.rows].
  destruct i as [|[|[|[|i]]]]; destruct j as [|[|[|[|j]]]]; simpl;
    try reflexivity;
    repeat match goal with
           | |- context [match ?x with _ => _ end] => destruct x; simpl
           end;
    reflexivity.
Defined.

Lemma numSpecies_of_partition_witness : numSpecies partition_211 = 4%Z.
Proof.
  apply (proj2 (numSpecies_of_partition partition_211 4 partition_211_covers)).
  reflexivity.
Defined.

Lemma rows_of_partition_witness :
  exists e k i : list R,
    equilibriumRows partition_211 [10; 20; 30; 40]%R = Ok e
    /\ kineticRows partition_211 [10; 20; 30; 40]%R = Ok k
    /\ inertRows partition_211 [10; 20; 30; 40]%R = Ok i
    /\ List.length e = 2%nat
    /\ List.length k = 1%nat
    /\ List.length i = 1%nat
    /\ Permutation (e ++ k ++ i) [10; 20; 30; 40]%R.
Proof.
  exact (rows_of_partition partition_211 [10; 20; 30; 40]%R
           partition_211_covers).
Defined.

Lemma rowsCols_of_symmetric_witness :
  exists s : Arma.mat,
    equilibriumRowsCols partition_211 matrix_4 = Ok s
    /\ Arma.n_rows s = 2%nat
    /\ symmetric s.
Proof.
  exact (proj1 (rowsCols_of_symmetric partition_211 matrix_4 matrix_4_symmetric)
           eq_refl).
Defined.

End PartitionInstances.

(** ** What the mechanism constructor accepts *)

Section MechanismOptions.

Import StringUtils MineralMechanism Props Terms.
Open Scope string_scope.

Variable convertible : string -> string -> bool.
Variable convert : R -> string -> string -> R.
Variable MineralCatalyst : Type.
Variable MineralCatalyst_of_string : string -> result MineralCatalyst.
Variables kappa0 Ea0 p0 q0 : R.

Local Notation "'parse'" :=
  (parse_option convertible convert MineralCatalyst_of_string).
Local Notation "'construct'" :=
  (of_string convertible convert MineralCatalyst_of_string kappa0 Ea0 p0 q0).
Local Notation "'start'" := (initial MineralCatalyst kappa0 Ea0 p0 q0).

(** The options that are not sent to the catalyst constructor and that the
    loop body accepts, and what it returns for them. *)
Lemma parse_accepts (option : string) (this m' : MineralMechanism MineralCatalyst) :
  is_catalyst option = false ->
  parse option this = Ok m' ->
  exists (quantity value : string) (rest : list string),
    split option "= " = quantity :: value :: rest
    /\ (List.length rest <= 1)%nat
    /\ ((quantity = "logk"
         /\ exists u, rest = [u]
              /\ convertible u "mol/(m2*s)" = true
              /\ m' = mk (convert (Rpower 10 (tofloat value)) u "mol/(m2*s)")
                         (Ea this) (p this) (q this) (catalysts this))
        \/ (quantity = "Ea"
            /\ exists u, rest = [u]
                 /\ convertible u "kJ/mol" = true
                 /\ m' = mk (kappa this) (convert (tofloat value) u "kJ/mol")
                            (p this) (q this) (catalysts this))
        \/ (quantity = "p" /\ m' = setPowerP (tofloat value) this)
        \/ (quantity = "q" /\ m' = setPowerQ (tofloat value) this)).
Proof.
  intros Hcat H. unfold parse_option in H. rewrite Hcat in H.
  destruct (split option "= ") as [|w0 [|w1 [|w2 [|w3 rest]]]] eqn:Ewords;
    try discriminate H.
  - exists w0, w1, []. split; [reflexivity|]. split; [simpl; lia|].
    cbn [guard List.length Nat.eqb Nat.ltb Nat.leb orb bind at_ nth_error] in H.
    destruct (String.eqb w0 "logk") eqn:E1; [discriminate H|].
    destruct (String.eqb w0 "Ea") eqn:E2; [discriminate H|].
    cbn [orb bind] in H.
    destruct (String.eqb w0 "p") eqn:E3.
    + apply String.eqb_eq in E3. right. right. left.
      split; [exact E3 | congruence].
    + destruct (String.eqb w0 "q") eqn:E4; [|discriminate H].
      apply String.eqb_eq in E4. right. right. right.
      split; [exact E4 | congruence].
  - exists w0, w1, [w2]. split; [reflexivity|]. split; [simpl; lia|].
    cbn [guard List.length Nat.eqb Nat.ltb Nat.leb orb bind at_ nth_error] in H.
    assert (Hcheck : (if String.eqb w0 "logk" || String.eqb w0 "Ea"
                      then Ok tt else Ok tt) = @Ok unit tt)
      by (destruct (String.eqb w0 "logk" || String.eqb w0 "Ea"); reflexivity).
    rewrite Hcheck in H. cbn [bind] in H.
    destruct (String.eqb w0 "logk") eqn:E1.
    + apply String.eqb_eq in E1. left. split; [exact E1|].
      exists w2. split; [reflexivity|].
      unfold setRateConstant, checkRateConstantUnit in H.
      destruct (convertible w2 "mol/(m2*s)"); [|discriminate H].
      split; [reflexivity | simpl in H; congruence].
    + destruct (String.eqb w0 "Ea") eqn:E2.
      * apply String.eqb_eq in E2. right. left. split; [exact E2|].
        exists w2. split; [reflexivity|].
        unfold setActivationEnergy, checkActivationEnergyUnit in H.
        destruct (convertible w2 "kJ/mol"); [|discriminate H].
        split; [reflexivity | simpl in H; congruence].
      * destruct (String.eqb w0 "p") eqn:E3.
        -- apply String.eqb_eq in E3. right. right. left.
           split; [exact E3 | congruence].
        -- destruct (String.eqb w0 "q") eqn:E4; [|discriminate H].
           apply String.eqb_eq in E4. right. right. right.
           split; [exact E4 | congruence].
Qed.

(** An option sent to the catalyst constructor appends one catalyst. *)
Lemma parse_catalyst (option : string) (this m' : MineralMechanism MineralCatalyst) :
  is_catalyst option = true ->
  parse option this = Ok m' ->
  exists c : MineralCatalyst,
    MineralCatalyst_of_string option = Ok c
    /\ m' = mk (kappa this) (Ea this) (p this) (q this) (catalysts this ++ [c]).
Proof.
  intros Hcat H. unfold parse_option in H. rewrite Hcat in H.
  destruct (MineralCatalyst_of_string option) as [c| |]; try discriminate H.
  exists c. split; [reflexivity | simpl in H; congruence].
Qed.

(** Every option of an accepted list has been accepted from some object. *)
Lemma for_each_accepted (A S : Type) (body : A -> S -> result S) (xs : list A) :
  forall (s m : S),
    for_each xs body s = Ok m ->
    forall x, In x xs -> exists s1 s2, body x s1 = Ok s2.
Proof.
  induction xs as [|y xs IH]; intros s m H x Hx; simpl in *.
  - destruct Hx.
  - destruct (body y s) as [s'| |] eqn:E; try discriminate H.
    destruct Hx as [->|Hx].
    + exists s, s'. exact E.
    + apply (IH s' m H x Hx).
Qed.

Lemma key_of_words (option quantity : string) (rest : list string) :
  split option "= " = quantity :: rest -> key option = quantity.
Proof.
  intros H. unfold key. rewrite H. reflexivity.
Qed.

(** X13.  When the constructor accepts a string, every option of it that
    is not sent to the catalyst constructor has two or three words and one of
    the keys logk, Ea, p and q, and an option with the key logk or Ea has
    three words, the third a unit convertible to mol/(m2*s), respectively
    kJ/mol. *)
Theorem accepted_options :
  forall (mechanism : string) (m : MineralMechanism MineralCatalyst),
    construct mechanism = Ok m ->
    forall option : string,
      In option (split mechanism ",") ->
      is_catalyst option = false ->
      In (key option) ["logk"; "Ea"; "p"; "q"]
      /\ (2 <= List.length (split option "= ") <= 3)%nat
      /\ (key option = "logk" ->
          exists value u,
            split option "= " = ["logk"; value; u]
            /\ convertible u "mol/(m2*s)" = true)
      /\ (key option = "Ea" ->
          exists value u,
            split option "= " = ["Ea"; value; u]
            /\ convertible u "kJ/mol" = true).
Proof.
  intros mechanism m Hm option Hin Hcat.
  destruct (for_each_accepted _ _ _ _ _ _ Hm option Hin) as (s1 & s2 & Hparse).
  destruct (parse_accepts option s1 s2 Hcat Hparse)
    as (quantity & value & rest & Hwords & Hrest & Hcases).
  rewrite (key_of_words option quantity (value :: rest) Hwords), Hwords.
  split.
  { destruct Hcases as [[-> _]|[[-> _]|[[-> _]|[-> _]]]]; simpl; auto. }
  split; [simpl; lia|].
  split.
  - intros ->.
    destruct Hcases as [[_ (u & -> & Hu & _)]|[[E _]|[[E _]|[E _]]]];
      try discriminate E.
    exists value, u. split; [reflexivity | exact Hu].
  - intros ->.
    destruct Hcases as [[E _]|[[_ (u & -> & Hu & _)]|[[E _]|[E _]]]];
      try discriminate E.
    exists value, u. split; [reflexivity | exact Hu].
Qed.

Lemma catalysts_collected (xs : list string) :
  forall this m : MineralMechanism MineralCatalyst,
    for_each xs parse this = Ok m ->
    exists cs : list MineralCatalyst,
      catalysts m = (catalysts this ++ cs)%list
      /\ Forall2 (fun option c => MineralCatalyst_of_string option = Ok c)
                 (filter is_catalyst xs) cs.
Proof.
  induction xs as [|x xs IH]; intros this m H; simpl in H.
  - exists []. injection H as <-. rewrite app_nil_r.
    split; [reflexivity | constructor].
  - destruct (parse x this) as [s'| |] eqn:E; try discriminate H.
    simpl in H. destruct (IH s' m H) as (cs & Hcs & Hall).
    simpl. destruct (is_catalyst x) eqn:Hcat.
    + destruct (parse_catalyst x this s' Hcat E) as (c & Hc & ->).
      exists (c :: cs). cbn [catalysts] in Hcs.
      rewrite <- app_assoc in Hcs.
      split; [exact Hcs | constructor; assumption].
    + exists cs. split; [|exact Hall].
      rewrite Hcs. f_equal.
      destruct (parse_accepts x this s' Hcat E)
        as (quantity & value & rest & _ & _ & Hcases).
      destruct Hcases as [[_ (u & _ & _ & ->)]|[[_ (u & _ & _ & ->)]|[[_ ->]|[_ ->]]]];
        reflexivity.
Qed.

(** X14.  When the constructor accepts a string, its catalysts are the
    catalysts constructed from the options with a catalyst marker, one for
    each and in the order of the string. *)
Theorem catalysts_in_order :
  forall (mechanism : string) (m : MineralMechanism MineralCatalyst),
    construct mechanism = Ok m ->
    Forall2 (fun option c => MineralCatalyst_of_string option = Ok c)
            (filter is_catalyst (split mechanism ","))
            (catalysts m).
Proof.
  intros mechanism m Hm. unfold of_string in Hm.
  destruct (catalysts_collected _ _ _ Hm) as (cs & Hcs & Hall).
  rewrite Hcs. exact Hall.
Qed.

(** X15.  An option of two or three words whose key is none of logk, Ea, p
    and q throws the error of an unknown option, which names the option. *)
Theorem unknown_key_is_refused :
  forall (option quantity value : string) (rest : list string)
         (this : MineralMechanism MineralCatalyst),
    is_catalyst option = false ->
    split option "= " = quantity :: value :: rest ->
    (List.length rest <= 1)%nat ->
    ~ In quantity ["logk"; "Ea"; "p"; "q"] ->
    parse option this
    = Raise (mkException
        ("Cannot set the option " ++ option ++ " in the mineral mechanism.")
        "This option has incorrect format or is not supported.").
Proof.
  intros option quantity value rest this Hcat Hwords Hrest Hkey.
  assert (E1 : String.eqb quantity "logk" = false).
  { apply String.eqb_neq. intros ->. apply Hkey. simpl. auto. }
  assert (E2 : String.eqb quantity "Ea" = false).
  { apply String.eqb_neq. intros ->. apply Hkey. simpl. auto. }
  assert (E3 : String.eqb quantity "p" = false).
  { apply String.eqb_neq. intros ->. apply Hkey. simpl. auto. }
  assert (E4 : String.eqb quantity "q" = false).
  { apply String.eqb_neq. intros ->. apply Hkey. simpl. auto. }
  unfold parse_option. rewrite Hcat, Hwords.
  destruct rest as [|u [|u' rest]]; [| |simpl in Hrest; lia].
  - cbn [guard List.length Nat.eqb Nat.ltb Nat.leb orb bind at_ nth_error].
    rewrite E1, E2, E3, E4. reflexivity.
  - cbn [guard List.length Nat.eqb Nat.ltb Nat.leb orb bind at_ nth_error].
    rewrite E1, E2, E3, E4. reflexivity.
Qed.

(** X16.  A third word after the value of p or q is not an error: it is
    ignored, and the option sets the exponent as without it. *)
Theorem unit_of_exponent_is_ignored :
  forall (option value u : string) (this : MineralMechanism MineralCatalyst),
    is_catalyst option = false ->
    (split option "= " = ["p"; value; u] ->
     parse option this = Ok (setPowerP (tofloat value) this))
    /\ (split option "= " = ["q"; value; u] ->
        parse option this = Ok (setPowerQ (tofloat value) this)).
Proof.
  intros option value u this Hcat.
  split; intros Hwords; unfold parse_option; rewrite Hcat, Hwords; reflexivity.
Qed.

(** What an accepted option leaves as it is. *)
Lemma parse_frame (option : string) (this m' : MineralMechanism MineralCatalyst) :
  parse option this = Ok m' ->
  (is_catalyst option = true \/ key option <> "logk" -> kappa m' = kappa this)
  /\ (is_catalyst option = true \/ key option <> "Ea" -> Ea m' = Ea this)
  /\ (is_catalyst option = true \/ key option <> "p" -> p m' = p this)
  /\ (is_catalyst option = true \/ key option <> "q" -> q m' = q this).
Proof.
  intros H. destruct (is_catalyst option) eqn:Hcat.
  - destruct (parse_catalyst option this m' Hcat H) as (c & _ & ->).
    repeat split; reflexivity.
  - destruct (parse_accepts option this m' Hcat H)
      as (quantity & value & rest & Hwords & _ & Hcases).
    rewrite (key_of_words option quantity (value :: rest) Hwords).
    destruct Hcases as [[-> (u & _ & _ & ->)]|[[-> (u & _ & _ & ->)]|[[-> ->]|[-> ->]]]];
      repeat split; intros [Hc|Hk]; try discriminate Hc; try reflexivity;
      exfalso; apply Hk; reflexivity.
Qed.

Lemma for_each_frame (field : MineralMechanism MineralCatalyst -> R) (k : string)
    (xs : list string) :
  (forall option this m',
     parse option this = Ok m' ->
     is_catalyst option = true \/ key option <> k ->
     field m' = field this) ->
  forall this m : MineralMechanism MineralCatalyst,
    for_each xs parse this = Ok m ->
    (forall option, In option xs ->
       is_catalyst option = true \/ key option <> k) ->
    field m = field this.
Proof.
  intros Hframe. induction xs as [|x xs IH]; intros this m H Hkeys; simpl in H.
  - injection H as <-. reflexivity.
  - destruct (parse x this) as [s'| |] eqn:E; try discriminate H.
    simpl in H. rewrite (IH s' m H).
    + apply (Hframe x this s' E). apply Hkeys. left. reflexivity.
    + intros option Hin. apply Hkeys. right. exact Hin.
Qed.

Lemma not_catalyst_or (option k : string) :
  (is_catalyst option = false -> key option <> k) ->
  is_catalyst option = true \/ key option <> k.
Proof.
  intros H. destruct (is_catalyst option); [left; reflexivity|].
  right. apply H. reflexivity.
Qed.

(** X17.  When the constructor accepts a string, a quantity that none of
    its options sets has the value of the default member: so for kappa when
    no option has the key logk, and so for Ea, p and q. *)
Theorem omitted_quantities_keep_their_defaults :
  forall (mechanism : string) (m : MineralMechanism MineralCatalyst),
    construct mechanism = Ok m ->
    ((forall option, In option (split mechanism ",") ->
        is_catalyst option = false -> key option <> "logk") ->
     kappa m = kappa0)
    /\ ((forall option, In option (split mechanism ",") ->
           is_catalyst option = false -> key option <> "Ea") ->
        Ea m = Ea0)
    /\ ((forall option, In option (split mechanism ",") ->
           is_catalyst option = false -> key option <> "p") ->
        p m = p0)
    /\ ((forall option, In option (split mechanism ",") ->
           is_catalyst option = false -> key option <> "q") ->
        q m = q0).
Proof.
  intros mechanism m Hm. unfold of_string in Hm.
  split; [|split; [|split]]; intros Hkeys.
  - apply (for_each_frame (@kappa MineralCatalyst) "logk" _
             (fun o t m' H => proj1 (parse_frame o t m' H)) _ _ Hm).
    intros option Hin. apply not_catalyst_or. apply Hkeys. exact Hin.
  - apply (for_each_frame (@Ea MineralCatalyst) "Ea" _
             (fun o t m' H => proj1 (proj2 (parse_frame o t m' H))) _ _ Hm).
    intros option Hin. apply not_catalyst_or. apply Hkeys. exact Hin.
  - apply (for_each_frame (@p MineralCatalyst) "p" _
             (fun o t m' H => proj1 (proj2 (proj2 (parse_frame o t m' H)))) _ _ Hm).
    intros option Hin. apply not_catalyst_or. apply Hkeys. exact Hin.
  - apply (for_each_frame (@q MineralCatalyst) "q" _
             (fun o t m' H => proj2 (proj2 (proj2 (parse_frame o t m' H)))) _ _ Hm).
    intros option Hin. apply not_catalyst_or. apply Hkeys. exact Hin.
Qed.

Lemma for_each_split (xs ys : list string) (x : string) :
  forall this m : MineralMechanism MineralCatalyst,
    for_each (xs ++ x :: ys) parse this = Ok m ->
    exists s1 s2,
      for_each xs parse this = Ok s1
      /\ parse x s1 = Ok s2
      /\ for_each ys parse s2 = Ok m.
Proof.
  intros this m H. rewrite for_each_app in H.
  destruct (for_each xs parse this) as [s1| |]; try discriminate H.
  simpl in H.
  destruct (parse x s1) as [s2| |] eqn:E; try discriminate H.
  exists s1, s2. split; [reflexivity|]. split; [exact E | exact H].
Qed.

(** X18.  When the constructor accepts a string, the last option with a
    key decides the quantity: after an option with the key p, and with no
    option with the key p behind it, p is the value of that option; so for
    q, and for logk and Ea with the power of ten and the unit conversion. *)
Theorem last_option_decides :
  forall (mechanism : string) (pre post : list string) (option value : string)
         (rest : list string) (m : MineralMechanism MineralCatalyst),
    split mechanism "," = (pre ++ option :: post)%list ->
    construct mechanism = Ok m ->
    is_catalyst option = false ->
    (forall o, In o post -> is_catalyst o = false -> key o <> key option) ->
    (split option "= " = "p" :: value :: rest -> p m = tofloat value)
    /\ (split option "= " = "q" :: value :: rest -> q m = tofloat value)
    /\ (forall u, split option "= " = ["logk"; value; u] ->
          kappa m = convert (Rpower 10 (tofloat value)) u "mol/(m2*s)")
    /\ (forall u, split option "= " = ["Ea"; value; u] ->
          Ea m = convert (tofloat value) u "kJ/mol").
Proof.
  intros mechanism pre post option value rest m Hsplit Hm Hcat Hpost.
  unfold of_string in Hm. rewrite Hsplit in Hm.
  destruct (for_each_split pre post option _ _ Hm) as (s1 & s2 & _ & Hopt & Hrest).
  destruct (parse_accepts option s1 s2 Hcat Hopt)
    as (quantity & value' & rest' & Hwords & _ & Hcases).
  assert (Hlater : forall k, key option = k ->
            forall o, In o post -> is_catalyst o = true \/ key o <> k).
  { intros k Hk o Ho. apply not_catalyst_or. intros Hc. rewrite <- Hk.
    apply Hpost; assumption. }
  split; [|split; [|split]].
  - intros Hw. rewrite Hw in Hwords. injection Hwords as <- <- <-.
    rewrite (for_each_frame (@p MineralCatalyst) "p" post
               (fun o t m' H => proj1 (proj2 (proj2 (parse_frame o t m' H))))
               s2 m Hrest (Hlater "p" (key_of_words option "p" _ Hw))).
    destruct Hcases as [[E _]|[[E _]|[[_ ->]|[E _]]]]; try discriminate E.
    reflexivity.
  - intros Hw. rewrite Hw in Hwords. injection Hwords as <- <- <-.
    rewrite (for_each_frame (@q MineralCatalyst) "q" post
               (fun o t m' H => proj2 (proj2 (proj2 (parse_frame o t m' H))))
               s2 m Hrest (Hlater "q" (key_of_words option "q" _ Hw))).
    destruct Hcases as [[E _]|[[E _]|[[E _]|[_ ->]]]]; try discriminate E.
    reflexivity.
  - intros u Hw. rewrite Hw in Hwords. injection Hwords as <- <- <-.
    rewrite (for_each_frame (@kappa MineralCatalyst) "logk" post
               (fun o t m' H => proj1 (parse_frame o t m' H))
               s2 m Hrest (Hlater "logk" (key_of_words option "logk" _ Hw))).
    destruct Hcases as [[_ (u' & Hu & _ & ->)]|[[E _]|[[E _]|[E _]]]];
      try discriminate E.
    injection Hu as <-. reflexivity.
  - intros u Hw. rewrite Hw in Hwords. injection Hwords as <- <- <-.
    rewrite (for_each_frame (@Ea MineralCatalyst) "Ea" post
               (fun o t m' H => proj1 (proj2 (parse_frame o t m' H)))
               s2 m Hrest (Hlater "Ea" (key_of_words option "Ea" _ Hw))).
    destruct Hcases as [[E _]|[[_ (u' & Hu & _ & ->)]|[[E _]|[E _]]]];
      try discriminate E.
    injection Hu as <-. reflexivity.
Qed.

End MechanismOptions.

(** ** The setters of a mechanism *)

Section MechanismSetters.

Import StringUtils MineralMechanism Props Terms.
Open Scope string_scope.

Variable convertible : string -> string -> bool.
Variable convert : R -> string -> string -> R.
Variable MineralCatalyst : Type.
Variable MineralCatalyst_of_string : string -> result MineralCatalyst.

(** X19.  [setCatalysts] replaces the catalysts, where an option of the
    constructor appends one: after [setCatalysts] of a catalyst the
    mechanism has this catalyst only, whatever it had, as after
    [setCatalysts] of the vector of this catalyst alone; the overload for a
    string does the same with the catalyst constructed from the string,
    while the constructor's loop body keeps the catalysts that are there. *)
Theorem setCatalysts_replaces :
  forall (c c' : MineralCatalyst) (cs : list MineralCatalyst) (option : string)
         (this : MineralMechanism MineralCatalyst),
    catalysts (setCatalysts c this) = [c]
    /\ setCatalysts c (setCatalysts c' this) = setCatalysts c this
    /\ setCatalysts c this = setCatalysts_of_vector [c] this
    /\ setCatalysts_of_vector cs (setCatalysts c' this)
       = setCatalysts_of_vector cs this
    /\ (MineralCatalyst_of_string option = Ok c ->
        setCatalysts_of_string MineralCatalyst_of_string option this
        = Ok (setCatalysts c this)
        /\ (is_catalyst option = true ->
            parse_option convertible convert MineralCatalyst_of_string option this
            = Ok (setCatalysts_of_vector (catalysts this ++ [c]) this))).
Proof.
  intros c c' cs option this.
  split; [reflexivity|]. split; [reflexivity|]. split; [reflexivity|].
  split; [reflexivity|].
  intros Hc. split.
  - unfold setCatalysts_of_string. rewrite Hc. reflexivity.
  - intros Hcat. unfold parse_option. rewrite Hcat, Hc. reflexivity.
Qed.

(** X20.  The setters of different quantities commute: with units that are
    convertible, setting the rate constant and then the activation energy
    gives the mechanism that the other order gives, each of the two commutes
    with setting p and with setting q, and setting p commutes with setting
    q; setting a quantity twice, be it the rate constant, the activation
    energy, p or q, keeps the second value. *)
Theorem setters_commute :
  forall (v v' w w' a a' b b' : R) (u u2 u' u2' : string)
         (this : MineralMechanism MineralCatalyst),
    convertible u "mol/(m2*s)" = true ->
    convertible u2 "mol/(m2*s)" = true ->
    convertible u' "kJ/mol" = true ->
    convertible u2' "kJ/mol" = true ->
    (r <- setRateConstant convertible convert v u this ;;
     setActivationEnergy convertible convert w u' r)
    = (r <- setActivationEnergy convertible convert w u' this ;;
       setRateConstant convertible convert v u r)
    /\ (r <- setRateConstant convertible convert v u this ;; Ok (setPowerP a r))
       = setRateConstant convertible convert v u (setPowerP a this)
    /\ (r <- setRateConstant convertible convert v u this ;; Ok (setPowerQ b r))
       = setRateConstant convertible convert v u (setPowerQ b this)
    /\ (r <- setActivationEnergy convertible convert w u' this ;; Ok (setPowerP a r))
       = setActivationEnergy convertible convert w u' (setPowerP a this)
    /\ (r <- setActivationEnergy convertible convert w u' this ;; Ok (setPowerQ b r))
       = setActivationEnergy convertible convert w u' (setPowerQ b this)
    /\ setPowerP a (setPowerQ b this) = setPowerQ b (setPowerP a this)
    /\ (r <- setRateConstant convertible convert v' u2 this ;;
        setRateConstant convertible convert v u r)
       = setRateConstant convertible convert v u this
    /\ (r <- setActivationEnergy convertible convert w' u2' this ;;
        setActivationEnergy convertible convert w u' r)
       = setActivationEnergy convertible convert w u' this
    /\ setPowerP a (setPowerP a' this) = setPowerP a this
    /\ setPowerQ b (setPowerQ b' this) = setPowerQ b this.
Proof.
  intros v v' w w' a a' b b' u u2 u' u2' this Hu Hu2 Hu' Hu2'.
  unfold setRateConstant, setActivationEnergy, checkRateConstantUnit,
    checkActivationEnergyUnit.
  rewrite ?Hu, ?Hu2, ?Hu', ?Hu2'. cbn [bind negb].
  rewrite ?Hu, ?Hu2, ?Hu', ?Hu2'. cbn [bind negb].
  repeat split; reflexivity.
Qed.

End MechanismSetters.

(** ** More on the thermodynamic state of water *)

Section WaterStateMore.

Import ThermoScalar Water.

Variables (T : Temperature) (P : Pressure) (D : ThermoScalar).
Variable wh : WaterHelmholtzState.

Let wt := waterThermoState T P D wh.

Lemma thermoscalar_eq (x y : ThermoScalar) :
  val x = val y -> ddt x = ddt y -> ddp x = ddp y -> x = y.
Proof.
  destruct x, y. simpl. intros -> -> ->. reflexivity.
Qed.

(** X21.  The Gibbs energy that [waterThermoState] returns is the Helmholtz
    energy plus P / D, derivatives included, and the internal energy is the
    Helmholtz energy minus T times helmholtzT; where the density is not 0,
    volume times density is 1 and the enthalpy is the internal energy plus
    pressure times volume. *)
Theorem energies_of_water :
  (gibbs wt = helmholtz wt + P / D)%ts
  /\ (val (internal_energy wt)
      = val (wh_helmholtz wh) - val T * val (helmholtzT wh))%R
  /\ (val D <> 0%R ->
      (val (volume wt) * val (density wt) = 1)%R
      /\ (val (enthalpy wt)
          = val (internal_energy wt) + val P * val (volume wt))%R).
Proof.
  unfold wt, waterThermoState.
  cbn [gibbs helmholtz internal_energy volume density enthalpy].
  split; [|split].
  - apply thermoscalar_eq; cbn [val ddt ddp add sub mul div opp const];
      unfold Rdiv; ring.
  - cbn [val add mul opp]. ring.
  - intros HD. cbn [val add mul div opp const]. split; field; exact HD.
Qed.

(** X22.  Where pressureD is not 0, the first-order density derivatives
    satisfy the relations of the implicit function: densityP times
    pressureD is 1, and densityT times pressureD plus pressureT is 0. *)
Theorem density_derivatives_consistent :
  val (pressureD wt) <> 0%R ->
  (val (densityP wt) * val (pressureD wt) = 1)%R
  /\ (val (densityT wt) * val (pressureD wt) + val (pressureT wt) = 0)%R
  /\ (val (densityT wt) = - val (pressureT wt) * val (densityP wt))%R.
Proof.
  unfold wt, waterThermoState.
  cbn [pressureD pressureT densityT densityP].
  set (pD := (const 2 * D * helmholtzD wh + D * D * helmholtzDD wh)%ts).
  set (pT := (D * D * helmholtzTD wh)%ts).
  intros HpD. cbn [val div opp const].
  repeat split; field; exact HpD.
Qed.

(** X23.  Where pressureD is not 0, densityPP is -pressureDD / pressureD^3
    and densityTP is -(pressureTD + pressureDD densityT) / pressureD^2;
    where pressureT is not 0 either, densityTT is
    -(pressureTT + 2 pressureTD densityT + pressureDD densityT^2) / pressureD. *)
Theorem density_second_derivatives :
  val (pressureD wt) <> 0%R ->
  (val (densityPP wt) = - val (pressureDD wt) / val (pressureD wt) ^ 3)%R
  /\ (val (densityTP wt)
      = - (val (pressureTD wt) + val (pressureDD wt) * val (densityT wt))
        / val (pressureD wt) ^ 2)%R
  /\ (val (pressureT wt) <> 0%R ->
      val (densityTT wt)
      = - (val (pressureTT wt)
           + 2 * val (pressureTD wt) * val (densityT wt)
           + val (pressureDD wt) * val (densityT wt) ^ 2)
        / val (pressureD wt))%R.
Proof.
  unfold wt, waterThermoState.
  cbn [pressureD pressureT pressureDD pressureTD pressureTT
       densityT densityP densityTT densityTP densityPP].
  set (pD := (const 2 * D * helmholtzD wh + D * D * helmholtzDD wh)%ts).
  set (pT := (D * D * helmholtzTD wh)%ts).
  set (pDD := (const 2 * helmholtzD wh + const 4 * D * helmholtzDD wh
               + D * D * helmholtzDDD wh)%ts).
  set (pTD := (const 2 * D * helmholtzTD wh + D * D * helmholtzTDD wh)%ts).
  set (pTT := (D * D * helmholtzTTD wh)%ts).
  intros HpD. cbn [val add mul div opp const].
  split; [field; exact HpD|]. split; [field; exact HpD|].
  intros HpT. field. split; [exact HpD | exact HpT].
Qed.

(** X24.  At a temperature that is not negative, a density that is not 0
    and a positive pressureD, the isobaric heat capacity is at least the
    isochoric one, and their difference is T pressureT^2 / (D^2 pressureD). *)
Theorem isobaric_at_least_isochoric :
  (0 <= val T)%R ->
  val D <> 0%R ->
  (0 < val (pressureD wt))%R ->
  (val (cp wt) - val (cv wt)
   = val T * val (pressureT wt) ^ 2 / (val D ^ 2 * val (pressureD wt)))%R
  /\ (val (cv wt) <= val (cp wt))%R.
Proof.
  unfold wt, waterThermoState. cbn [cp cv pressureD pressureT].
  set (pD := (const 2 * D * helmholtzD wh + D * D * helmholtzDD wh)%ts).
  set (pT := (D * D * helmholtzTD wh)%ts).
  intros HT HD HpD. cbn [val add mul div opp const].
  assert (Hdiff : (- val T * val (helmholtzTT wh)
                   + val T / (val D * val D) * val pT * val pT / val pD
                   - - val T * val (helmholtzTT wh)
                   = val T * val pT ^ 2 / (val D ^ 2 * val pD))%R).
  { field. split; [lra | exact HD]. }
  split; [exact Hdiff|].
  assert (Hpos : (0 <= val T * val pT ^ 2 / (val D ^ 2 * val pD))%R).
  { apply Rmult_le_pos.
    - apply Rmult_le_pos; [exact HT | apply pow2_ge_0].
    - apply Rlt_le, Rinv_0_lt_compat.
      apply Rmult_lt_0_compat; [|exact HpD].
      destruct (Rtotal_order (val D) 0) as [Hneg|[Hzero|Hpos]];
        [nra | contradiction | nra]. }
  lra.
Qed.

End WaterStateMore.

Section WaterFormulations.

Import ThermoScalar Water.

Variable waterDensityHGK : Temperature -> Pressure -> ThermoScalar.
Variable waterHelmholtzStateHGK : Temperature -> ThermoScalar -> WaterHelmholtzState.
Variable waterDensityWagnerPruss : Temperature -> Pressure -> ThermoScalar.
Variable waterHelmholtzStateWagnerPruss :
  Temperature -> ThermoScalar -> WaterHelmholtzState.

(** X25.  The state of water of either formulation is at the temperature
    and the pressure asked for and at the density of the formulation, and
    its Gibbs energy is the Helmholtz energy of the formulation at that
    density plus the pressure over that density. *)
Theorem state_of_formulations :
  forall (T : Temperature) (P : Pressure),
    (let wt := waterThermoStateHGK waterDensityHGK waterHelmholtzStateHGK T P in
     let D := waterDensityHGK T P in
     temperature wt = T /\ pressure wt = P /\ density wt = D
     /\ gibbs wt = (wh_helmholtz (waterHelmholtzStateHGK T D) + P / D)%ts)
    /\ (let wt := waterThermoStateWagnerPruss waterDensityWagnerPruss
                    waterHelmholtzStateWagnerPruss T P in
        let D := waterDensityWagnerPruss T P in
        temperature wt = T /\ pressure wt = P /\ density wt = D
        /\ gibbs wt
           = (wh_helmholtz (waterHelmholtzStateWagnerPruss T D) + P / D)%ts).
Proof.
  intros T P.
  split; cbv zeta;
    unfold waterThermoStateHGK, waterThermoStateWagnerPruss;
    (split; [reflexivity|]); (split; [reflexivity|]); (split; [reflexivity|]);
    apply (proj1 (energies_of_water T P _ _)).
Qed.

End WaterFormulations.

(** ** Instances *)

Section MoreMechanismInstances.

Import StringUtils MineralMechanism Props Terms.
Open Scope string_scope.

Local Notation "'parse_here'" :=
  (parse_option String.eqb (fun v _ _ => v) (@Ok string)).
Local Notation "'construct_here'" :=
  (of_string String.eqb (fun v _ _ => v) (@Ok string) 0 0 1 1).

(** A rate constant, a catalyst and an exponent. *)
Lemma mechanism_with_catalyst :
  construct_here "logk=-6 mol/(m2*s),a[H+]=1,p=2"
  = Ok (mk (Rpower 10 (tofloat "-6")) 0 (tofloat "2") 1 ["a[H+]=1"]).
Proof. reflexivity. Defined.

Lemma mechanism_with_two_exponents :
  construct_here "p=1,p=2" = Ok (mk 0 0 (tofloat "2") 1 []).
Proof. reflexivity. Defined.

Lemma accepted_options_witness :
  In (key "p=2") ["logk"; "Ea"; "p"; "q"]
  /\ (2 <= List.length (split "p=2" "= ") <= 3)%nat.
Proof.
  destruct (accepted_options String.eqb (fun v _ _ => v) string (@Ok string)
              0 0 1 1 "logk=-6 mol/(m2*s),a[H+]=1,p=2" _
              mechanism_with_catalyst "p=2")
    as (Hkey & Hwords & _).
  - simpl. right. right. left. reflexivity.
  - reflexivity.
  - split; [exact Hkey | exact Hwords].
Defined.

Lemma catalysts_in_order_witness :
  Forall2 (fun option c => @Ok string option = Ok c)
          (filter is_catalyst (split "logk=-6 mol/(m2*s),a[H+]=1,p=2" ","))
          ["a[H+]=1"].
Proof.
  exact (catalysts_in_order String.eqb (fun v _ _ => v) string (@Ok string)
           0 0 1 1 "logk=-6 mol/(m2*s),a[H+]=1,p=2" _ mechanism_with_catalyst).
Defined.

Lemma unknown_key_is_refused_witness :
  parse_here "x=1" (initial string 0 0 1 1)
  = Raise (mkException
      "Cannot set the option x=1 in the mineral mechanism."
      "This option has incorrect format or is not supported.").
Proof.
  apply (unknown_key_is_refused String.eqb (fun v _ _ => v) string (@Ok string)
           "x=1" "x" "1" [] (initial string 0 0 1 1)).
  - reflexivity.
  - reflexivity.
  - simpl. lia.
  - intros [H|[H|[H|[H|[]]]]]; discriminate H.
Defined.

Lemma unit_of_exponent_is_ignored_witness :
  parse_here "p=2 kJ" (initial string 0 0 1 1)
  = Ok (setPowerP (tofloat "2") (initial string 0 0 1 1)).
Proof.
  apply (proj1 (unit_of_exponent_is_ignored String.eqb (fun v _ _ => v) string
                  (@Ok string) "p=2 kJ" "2" "kJ" (initial string 0 0 1 1)
                  eq_refl)).
  reflexivity.
Defined.

Lemma omitted_quantities_keep_their_defaults_witness :
  Ea (mk (Rpower 10 (tofloat "-6")) 0 (tofloat "2") 1 ["a[H+]=1"]) = 0%R
  /\ q (mk (Rpower 10 (tofloat "-6")) 0 (tofloat "2") 1 ["a[H+]=1"]) = 1%R.
Proof.
  destruct (omitted_quantities_keep_their_defaults String.eqb (fun v _ _ => v)
              string (@Ok string) 0 0 1 1 "logk=-6 mol/(m2*s),a[H+]=1,p=2" _
              mechanism_with_catalyst)
    as (_ & HEa & _ & Hq).
  split.
  - apply HEa. intros option Hin Hcat.
    change (split "logk=-6 mol/(m2*s),a[H+]=1,p=2" ",")
      with ["logk=-6 mol/(m2*s)"; "a[H+]=1"; "p=2"] in Hin.
    destruct Hin as [<-|[<-|[<-|[]]]]; try discriminate Hcat;
      intros H; discriminate H.
  - apply Hq. intros option Hin Hcat.
    change (split "logk=-6 mol/(m2*s),a[H+]=1,p=2" ",")
      with ["logk=-6 mol/(m2*s)"; "a[H+]=1"; "p=2"] in Hin.
    destruct Hin as [<-|[<-|[<-|[]]]]; try discriminate Hcat;
      intros H; discriminate H.
Defined.

Lemma last_option_decides_witness :
  p (mk 0 0 (tofloat "2") 1 (@nil string)) = tofloat "2".
Proof.
  apply (proj1 (last_option_decides String.eqb (fun v _ _ => v) string
                  (@Ok string) 0 0 1 1 "p=1,p=2" ["p=1"] [] "p=2" "2" [] _
                  eq_refl mechanism_with_two_exponents eq_refl
                  (fun o Ho => match Ho with end))).
  reflexivity.
Defined.

Lemma setCatalysts_replaces_witness :
  setCatalysts_of_string (@Ok string) "a[H+]=1"
    (mk 0 0 1 1 ["p[CO2]=1"])
  = Ok (setCatalysts "a[H+]=1" (mk 0 0 1 1 ["p[CO2]=1"]))
  /\ parse_here "a[H+]=1" (mk 0 0 1 1 ["p[CO2]=1"])
     = Ok (setCatalysts_of_vector ["p[CO2]=1"; "a[H+]=1"]
             (mk 0 0 1 1 ["p[CO2]=1"])).
Proof.
  destruct (setCatalysts_replaces String.eqb (fun v _ _ => v) string
              (@Ok string) "a[H+]=1" "a[H+]=1" [] "a[H+]=1"
              (mk 0 0 1 1 ["p[CO2]=1"]))
    as (_ & _ & _ & _ & H).
  destruct (H eq_refl) as [Hset Hparse].
  split; [exact Hset | exact (Hparse eq_refl)].
Defined.

Lemma setters_commute_witness :
  (r <- setRateConstant String.eqb (fun v _ _ => v) 3 "mol/(m2*s)"
          (initial string 0 0 1 1) ;;
   setActivationEnergy String.eqb (fun v _ _ => v) 50 "kJ/mol" r)
  = (r <- setActivationEnergy String.eqb (fun v _ _ => v) 50 "kJ/mol"
            (initial string 0 0 1 1) ;;
     setRateConstant String.eqb (fun v _ _ => v) 3 "mol/(m2*s)" r).
Proof.
  exact (proj1 (setters_commute String.eqb (fun v _ _ => v) string
                  3 7 50 60 1 2 3 4 "mol/(m2*s)" "mol/(m2*s)" "kJ/mol" "kJ/mol"
                  (initial string 0 0 1 1) eq_refl eq_refl eq_refl eq_refl)).
Defined.

End MoreMechanismInstances.

Section WaterInstances.

Import ThermoScalar Water Terms.

Local Notation "'wt_sample'" :=
  (waterThermoState temperature_sample pressure_sample density_sample
     helmholtz_sample).

Lemma pressureD_sample : val (pressureD wt_sample) = 36%R.
Proof.
  cbn [waterThermoState pressureD helmholtz_sample density_sample
       helmholtzD helmholtzDD val add mul const]. lra.
Defined.

Lemma pressureT_sample : val (pressureT wt_sample) = 20%R.
Proof.
  cbn [waterThermoState pressureT helmholtz_sample density_sample
       helmholtzTD val add mul const]. lra.
Defined.

Lemma energies_of_water_witness :
  (val (volume wt_sample) * val (density wt_sample) = 1)%R
  /\ (val (enthalpy wt_sample)
      = val (internal_energy wt_sample)
        + val pressure_sample * val (volume wt_sample))%R.
Proof.
  apply (proj2 (proj2 (energies_of_water temperature_sample pressure_sample
                         density_sample helmholtz_sample))).
  cbn [density_sample val]. lra.
Defined.

Lemma density_derivatives_consistent_witness :
  (val (densityP wt_sample) * val (pressureD wt_sample) = 1)%R
  /\ (val (densityT wt_sample) * val (pressureD wt_sample)
      + val (pressureT wt_sample) = 0)%R
  /\ (val (densityT wt_sample)
      = - val (pressureT wt_sample) * val (densityP wt_sample))%R.
Proof.
  apply (density_derivatives_consistent temperature_sample pressure_sample
           density_sample helmholtz_sample).
  rewrite pressureD_sample. lra.
Defined.

Lemma density_second_derivatives_witness :
  (val (densityTT wt_sample)
   = - (val (pressureTT wt_sample)
        + 2 * val (pressureTD wt_sample) * val (densityT wt_sample)
        + val (pressureDD wt_sample) * val (densityT wt_sample) ^ 2)
     / val (pressureD wt_sample))%R.
Proof.
  apply (proj2 (proj2 (density_second_derivatives temperature_sample
                         pressure_sample density_sample helmholtz_sample
                         ltac:(rewrite pressureD_sample; lra)))).
  rewrite pressureT_sample. lra.
Defined.

Lemma isobaric_at_least_isochoric_witness :
  (val (cv wt_sample) <= val (cp wt_sample))%R.
Proof.
  apply (isobaric_at_least_isochoric temperature_sample pressure_sample
           density_sample helmholtz_sample).
  - cbn [temperature_sample val]. lra.
  - cbn [density_sample val]. lra.
  - rewrite pressureD_sample. lra.
Defined.

End WaterInstances.

(** ** The formula matrix of a partition *)

Section FormulaMatrix.

Import Partition PartitionUtils Terms.

Lemma selection_shaped (g : nat -> nat -> R) (rs cs : list nat) :
  Arma.shaped
    (Arma.mk (List.length cs) (map (fun i => map (fun j => g i j) cs) rs))
  = true.
Proof.
  unfold Arma.shaped. cbn [Arma.rows Arma.n_cols].
  apply forallb_forall. intros r Hr.
  apply in_map_iff in Hr. destruct Hr as (i & <- & _).
  rewrite length_map. apply Nat.eqb_refl.
Qed.

(** X26.  With equilibrium elements that are rows and equilibrium species
    that are columns of a matrix, [equilibriumFormulaMatrix] returns a
    matrix with one row for each equilibrium element and one column for each
    equilibrium species, whose entry at (i, j) is the entry of the matrix at
    the i-th equilibrium element and the j-th equilibrium species; so do
    [kineticFormulaMatrix] and [inertFormulaMatrix] for their elements and
    species. *)
Theorem formula_matrix_of_partition :
  forall (partition : Partition) (mat : Arma.mat),
    (Arma.in_range (Arma.n_rows mat) (indicesEquilibriumElements partition) = true ->
     Arma.in_range (Arma.n_cols mat) (indicesEquilibriumSpecies partition) = true ->
     exists s : Arma.mat,
       equilibriumFormulaMatrix partition mat = Ok s
       /\ Arma.n_rows s = List.length (indicesEquilibriumElements partition)
       /\ Arma.n_cols s = List.length (indicesEquilibriumSpecies partition)
       /\ Arma.shaped s = true
       /\ forall i j,
            (i < List.length (indicesEquilibriumElements partition))%nat ->
            (j < List.length (indicesEquilibriumSpecies partition))%nat ->
            Arma.entry s i j
            = Arma.entry mat (nth i (indicesEquilibriumElements partition) O)
                             (nth j (indicesEquilibriumSpecies partition) O))
    /\ (Arma.in_range (Arma.n_rows mat) (indicesKineticElements partition) = true ->
        Arma.in_range (Arma.n_cols mat) (indicesKineticSpecies partition) = true ->
        exists s : Arma.mat,
          kineticFormulaMatrix partition mat = Ok s
          /\ Arma.n_rows s = List.length (indicesKineticElements partition)
          /\ Arma.n_cols s = List.length (indicesKineticSpecies partition)
          /\ Arma.shaped s = true
          /\ forall i j,
               (i < List.length (indicesKineticElements partition))%nat ->
               (j < List.length (indicesKineticSpecies partition))%nat ->
               Arma.entry s i j
               = Arma.entry mat (nth i (indicesKineticElements partition) O)
                                (nth j (indicesKineticSpecies partition) O))
    /\ (Arma.in_range (Arma.n_rows mat) (indicesInertElements partition) = true ->
        Arma.in_range (Arma.n_cols mat) (indicesInertSpecies partition) = true ->
        exists s : Arma.mat,
          inertFormulaMatrix partition mat = Ok s
          /\ Arma.n_rows s = List.length (indicesInertElements partition)
          /\ Arma.n_cols s = List.length (indicesInertSpecies partition)
          /\ Arma.shaped s = true
          /\ forall i j,
               (i < List.length (indicesInertElements partition))%nat ->
               (j < List.length (indicesInertSpecies partition))%nat ->
               Arma.entry s i j
               = Arma.entry mat (nth i (indicesInertElements partition) O)
                                (nth j (indicesInertSpecies partition) O)).
Proof.
  intros partition mat.
  assert (Hblock : forall rs cs : list nat,
             Arma.in_range (Arma.n_rows mat) rs = true ->
             Arma.in_range (Arma.n_cols mat) cs = true ->
             exists s : Arma.mat,
               Arma.submat mat rs cs = Ok s
               /\ Arma.n_rows s = List.length rs
               /\ Arma.n_cols s = List.length cs
               /\ Arma.shaped s = true
               /\ forall i j,
                    (i < List.length rs)%nat -> (j < List.length cs)%nat ->
                    Arma.entry s i j = Arma.entry mat (nth i rs O) (nth j cs O)).
  { intros rs cs Hr Hc. unfold Arma.submat. rewrite Hr, Hc. simpl.
    eexists. split; [reflexivity|].
    split; [unfold Arma.n_rows; cbn [Arma.rows]; apply length_map|].
    split; [reflexivity|].
    change (fun i0 => map (fun j0 => nth j0 (nth i0 (Arma.rows mat) []) 0%R) cs)
      with (fun i0 => map (fun j0 => Arma.entry mat i0 j0) cs).
    split; [apply selection_shaped|].
    intros i j Hi Hj. rewrite entry_of_selection.
    apply Nat.ltb_lt in Hi. apply Nat.ltb_lt in Hj. rewrite Hi, Hj.
    reflexivity. }
  split; [|split]; intros Hr Hc; apply Hblock; assumption.
Qed.

End FormulaMatrix.

Section FormulaMatrixInstance.

Import Partition PartitionUtils Terms.

Lemma formula_matrix_of_partition_witness :
  exists s : Arma.mat,
    equilibriumFormulaMatrix partition_211 matrix_4 = Ok s
    /\ Arma.n_rows s = 2%nat
    /\ Arma.n_cols s = 2%nat
    /\ Arma.shaped s = true
    /\ forall i j, (i < 2)%nat -> (j < 2)%nat ->
         Arma.entry s i j
         = Arma.entry matrix_4 (nth i [0; 1]%nat O) (nth j [0; 2]%nat O).
Proof.
  exact (proj1 (formula_matrix_of_partition partition_211 matrix_4)
           eq_refl eq_refl).
Defined.

End FormulaMatrixInstance.

(** ** An option that is a key alone *)

Section KeyAlone.

Import StringUtils MineralMechanism Props.
Open Scope string_scope.

(** C6.  The claim does not hold of the code for a key without a value.
    Whatever the units library, the parser of catalysts and the default
    members: the strings "Ea", "Ea=" and "logk" are one option of one word
    with the key Ea, respectively logk, and no unit; the guard lets the
    option through, [words[1]] is read outside the vector before the test
    [words.size() < 3] is reached, and neither the error of a missing unit nor
    any other error is thrown. *)
Theorem key_alone_reads_out_of_range :
  forall (convertible : string -> string -> bool)
         (convert : R -> string -> string -> R)
         (MineralCatalyst : Type)
         (MineralCatalyst_of_string : string -> result MineralCatalyst)
         (kappa0 Ea0 p0 q0 : R),
    split "Ea" "= " = ["Ea"]
    /\ split "Ea=" "= " = ["Ea"]
    /\ split "logk" "= " = ["logk"]
    /\ (forall this : MineralMechanism MineralCatalyst,
          parse_option convertible convert MineralCatalyst_of_string "Ea" this
          = Fault)
    /\ of_string convertible convert MineralCatalyst_of_string
         kappa0 Ea0 p0 q0 "Ea" = Fault
    /\ of_string convertible convert MineralCatalyst_of_string
         kappa0 Ea0 p0 q0 "Ea=" = Fault
    /\ of_string convertible convert MineralCatalyst_of_string
         kappa0 Ea0 p0 q0 "logk" = Fault
    /\ (forall e : Exception,
          of_string convertible convert MineralCatalyst_of_string
            kappa0 Ea0 p0 q0 "Ea" <> Raise e).
Proof.
  intros convertible convert MineralCatalyst MineralCatalyst_of_string
    kappa0 Ea0 p0 q0.
  assert (HEa : forall this : MineralMechanism MineralCatalyst,
            parse_option convertible convert MineralCatalyst_of_string "Ea" this
            = Fault).
  { intros this.
    apply (parse_one_word convertible convert MineralCatalyst
             MineralCatalyst_of_string "Ea" "Ea" this); reflexivity. }
  split; [reflexivity|]. split; [reflexivity|]. split; [reflexivity|].
  split; [exact HEa|].
  assert (Hstring : of_string convertible convert MineralCatalyst_of_string
                      kappa0 Ea0 p0 q0 "Ea" = Fault).
  { unfold of_string.
    change (split "Ea" ",") with ["Ea"]. cbn [for_each].
    rewrite HEa. reflexivity. }
  split; [exact Hstring|].
  split.
  { unfold of_string.
    change (split "Ea=" ",") with ["Ea="]. cbn [for_each].
    rewrite (parse_one_word convertible convert MineralCatalyst
               MineralCatalyst_of_string "Ea=" "Ea") by reflexivity.
    reflexivity. }
  split.
  { unfold of_string.
    change (split "logk" ",") with ["logk"]. cbn [for_each].
    rewrite (parse_one_word convertible convert MineralCatalyst
               MineralCatalyst_of_string "logk" "logk") by reflexivity.
    reflexivity. }
  intros e. rewrite Hstring. discriminate.
Qed.

End KeyAlone.
